(** * News Digester: the renderer's form controller and the placeholder service

    A shallow embedding of
      - [src/presentation/controllers/AppController.ts] (the renderer-side
        controller: per-platform configuration fragments, form submission,
        the simulated scraping run), and
      - [src/domain/usecases/ExampleUseCase.ts] with the application service
        that wraps it.

    JavaScript strings are modelled by [string], one character per code
    unit (code units above 255 are outside the model); the [Set<string>] of
    loaded platforms by [gset string]; the document by a first-child /
    next-sibling forest of elements; the controller's methods by functions in
    a small state-and-trace monad. An [async] method is cut at its [await]:
    [loadPlatformConfig] has a part that runs up to the request and a part
    that runs when the response has arrived. *)

From Stdlib Require Import Ascii.
From stdpp Require Import base strings list gmap sets.

Open Scope string_scope.
Open Scope list_scope.

(* ===================================================================== *)
(** ** JavaScript values and strings *)
(* ===================================================================== *)

(** Characters that cannot be written inside a Rocq string literal here. *)
Definition dq : string := String "034"%char EmptyString.
Definition backslash : string := String "092"%char EmptyString.
Definition nl : string := String "010"%char EmptyString.

(** A quoted HTML attribute value. *)
Definition q (s : string) : string := dq +:+ s +:+ dq.

Fixpoint spaces (n : nat) : string :=
  match n with
  | O => EmptyString
  | S n' => String " "%char (spaces n')
  end.

(** [Array.prototype.join] on strings. *)
Fixpoint join (sep : string) (l : list string) : string :=
  match l with
  | [] => EmptyString
  | [x] => x
  | x :: rest => x +:+ sep +:+ join sep rest
  end.

(** What a property read can yield in the controller: a string, or
    [undefined] (from [?.] on a missing element, or from reading [.value] on
    an element that has none). *)
Inductive Value : Type :=
  | Undefined
  | Str (s : string).

Global Instance Value_eq_dec : EqDecision Value.
Proof. solve_decision. Defined.

(** JavaScript truthiness: [undefined] and the empty string are falsy. *)
Definition truthy (v : Value) : bool :=
  match v with
  | Undefined => false
  | Str s => negb (String.eqb s EmptyString)
  end.

(** [v || d]. *)
Definition or_else (v : Value) (d : string) : Value :=
  if truthy v then v else Str d.

(** [s.charAt(0)] and [s.slice(1)]. *)
Definition charAt0 (s : string) : string :=
  match s with
  | EmptyString => EmptyString
  | String c _ => String c EmptyString
  end.

Definition slice1 (s : string) : string :=
  match s with
  | EmptyString => EmptyString
  | String _ rest => rest
  end.

(* ===================================================================== *)
(** ** Promises, and the placeholder use case and service *)
(* ===================================================================== *)

(** The outcome of an [async] function once it has settled. *)
Inductive Promise (A : Type) : Type :=
  | Resolved (a : A)
  | Rejected (reason : string).
Arguments Resolved {A} a.
Arguments Rejected {A} reason.

(** [await p] followed by the rest of the [async] body. *)
Definition await {A B : Type} (p : Promise A) (k : A → Promise B) : Promise B :=
  match p with
  | Resolved a => k a
  | Rejected r => Rejected r
  end.

(** [interface IService<T> { execute(...args): Promise<T> }], at the one
    argument type the repository uses it with. *)
Class IService (Self T : Type) := { execute : Self → string → Promise T }.

Module ExampleUseCase.
(** The class has no fields. *)
Record t : Type := new {}.

(** [async execute(message) { return `Processed: ${message}`; }] *)
Definition execute (self : t) (message : string) : Promise string :=
  Resolved ("Processed: " +:+ message).
End ExampleUseCase.

Global Instance ExampleUseCase_IService : IService ExampleUseCase.t string :=
  {| execute := ExampleUseCase.execute |}.

Module ExampleService.
Record t : Type := mk { useCase : ExampleUseCase.t }.

(** [constructor() { this.useCase = new ExampleUseCase(); }] *)
Definition new : t := {| useCase := ExampleUseCase.new |}.

(** [async processMessage(message) { return await this.useCase.execute(message); }] *)
Definition processMessage (self : t) (message : string) : Promise string :=
  await (execute (useCase self) message) (λ r, Resolved r).
End ExampleService.

(* ===================================================================== *)
(** ** The document *)
(* ===================================================================== *)

(** The controller keeps four element references in its fields. A node of the
    document records which of these fields point at it ([el_held]), so that an
    update through a field reaches that very node wherever it stands. *)
Inductive Ref : Type :=
  | PlatformConfigRef     (* this.configContainer *)
  | ScraperFormRef        (* this.form *)
  | ResultsRef            (* this.resultsDiv *)
  | ResultsContentRef.    (* this.resultsContent *)

Global Instance Ref_eq_dec : EqDecision Ref.
Proof. solve_decision. Defined.

(** The properties of an element that the controller reads or writes. *)
Record Element : Type := mkElement {
  el_held : list Ref;       (* controller fields that refer to this node *)
  el_id : string;           (* id *)
  el_className : string;    (* className *)
  el_display : string;      (* style.display *)
  el_value : Value;         (* value; undefined on anything but a form control *)
  el_innerHTML : string     (* the markup last assigned to innerHTML *)
}.

Definition with_held (h : list Ref) (e : Element) : Element :=
  mkElement h (el_id e) (el_className e) (el_display e) (el_value e) (el_innerHTML e).
Definition with_display (d : string) (e : Element) : Element :=
  mkElement (el_held e) (el_id e) (el_className e) d (el_value e) (el_innerHTML e).
Definition with_innerHTML (h : string) (e : Element) : Element :=
  mkElement (el_held e) (el_id e) (el_className e) (el_display e) (el_value e) h.
Definition with_value (v : Value) (e : Element) : Element :=
  mkElement (el_held e) (el_id e) (el_className e) (el_display e) v (el_innerHTML e).

(** A forest of elements in the DOM's own shape: every node has its
    [firstChild] and its [nextSibling]. Document order is the preorder. *)
Inductive Forest : Type :=
  | Nil
  | Node (e : Element) (firstChild nextSibling : Forest).

(** Ids and held references, in document order. *)
Fixpoint ids (f : Forest) : list string :=
  match f with
  | Nil => []
  | Node e c s => el_id e :: ids c ++ ids s
  end.

Fixpoint refs (f : Forest) : list Ref :=
  match f with
  | Nil => []
  | Node e c s => el_held e ++ refs c ++ refs s
  end.

(** The first node, in document order, that satisfies [P], with its children. *)
Fixpoint find (P : Element → bool) (f : Forest) : option (Element * Forest) :=
  match f with
  | Nil => None
  | Node e c s =>
      if P e then Some (e, c)
      else match find P c with
           | Some r => Some r
           | None => find P s
           end
  end.

(** Rewrite the first node, in document order, that satisfies [P] (the node
    and its children); [None] when the forest has no such node. *)
Fixpoint modify (P : Element → bool) (g : Element → Forest → Element * Forest)
    (f : Forest) : option Forest :=
  match f with
  | Nil => None
  | Node e c s =>
      if P e then let '(e', c') := g e c in Some (Node e' c' s)
      else match modify P g c with
           | Some c' => Some (Node e c' s)
           | None => Node e c <$> modify P g s
           end
  end.

(** An update of a node that is no longer in the document is not seen by
    anything that reads the document. *)
Definition update (P : Element → bool) (g : Element → Forest → Element * Forest)
    (f : Forest) : Forest :=
  default f (modify P g f).

Definition has_id (i : string) (e : Element) : bool := bool_decide (el_id e = i).
Definition held_by (r : Ref) (e : Element) : bool := bool_decide (r ∈ el_held e).

(** [document.getElementById(i)] *)
Definition getElementById (i : string) (doc : Forest) : option (Element * Forest) :=
  find (has_id i) doc.

(** [document.getElementById(i)?.value] *)
Definition valueById (i : string) (doc : Forest) : Value :=
  match getElementById i doc with
  | Some (e, _) => el_value e
  | None => Undefined
  end.

(** [el.remove()] on the element [document.getElementById(i)] has just
    returned: the first node with that id leaves the document together with
    its subtree. [None] when there is no such node. *)
Fixpoint removeById (i : string) (f : Forest) : option Forest :=
  match f with
  | Nil => None
  | Node e c s =>
      if has_id i e then Some s
      else match removeById i c with
           | Some c' => Some (Node e c' s)
           | None => Node e c <$> removeById i s
           end
  end.

(** The sibling chain [f] with [new] after its last node. *)
Fixpoint append (f new : Forest) : Forest :=
  match f with
  | Nil => new
  | Node e c s => Node e c (append s new)
  end.

(** Nodes that no controller field refers to (newly created ones). *)
Fixpoint unheld (f : Forest) : Forest :=
  match f with
  | Nil => Nil
  | Node e c s => Node (with_held [] e) (unheld c) (unheld s)
  end.

(** [r.appendChild(child)], [r.style.display = d], for the node held as [r]. *)
Definition appendChild (r : Ref) (child : Forest) (doc : Forest) : Forest :=
  update (held_by r) (λ e c, (e, append c child)) doc.

Definition setDisplay (r : Ref) (d : string) (doc : Forest) : Forest :=
  update (held_by r) (λ e c, (with_display d e, c)) doc.

(** The user types [s] into the form control with id [i]. *)
Definition typeInto (i s : string) (doc : Forest) : Forest :=
  update (has_id i) (λ e c, (with_value (Str s) e, c)) doc.

(** The constructor's [this.field = document.getElementById(i)]: the first
    node with id [i] becomes the one held as [r]. *)
Definition capture (r : Ref) (i : string) (doc : Forest) : option Forest :=
  modify (has_id i) (λ e c, (with_held (r :: el_held e) e, c)) doc.

(* ===================================================================== *)
(** ** JSON.stringify on a configuration object *)
(* ===================================================================== *)

(** [interface ScrapingConfig { platform: string; [key: string]: any }].
    The object is created as [{ platform }], so [platform] is its first
    property; the others follow in the order they were assigned. *)
Record ScrapingConfig : Type := mkConfig {
  cfg_platform : string;
  cfg_fields : list (string * Value)
}.

(** [config[key] = v] for a key other than [platform] (the controller
    assigns no other): an existing property keeps its place, a new one goes
    last. *)
Fixpoint assign (key : string) (v : Value) (fields : list (string * Value))
    : list (string * Value) :=
  match fields with
  | [] => [(key, v)]
  | (k, w) :: rest =>
      if decide (k = key) then (k, v) :: rest else (k, w) :: assign key v rest
  end.

Definition set_field (key : string) (v : Value) (c : ScrapingConfig) : ScrapingConfig :=
  mkConfig (cfg_platform c) (assign key v (cfg_fields c)).

(** The properties of the object, in enumeration order: for the keys the
    controller assigns, none of which is [platform] or an array index, that
    is the order of creation. *)
Definition properties (c : ScrapingConfig) : list (string * Value) :=
  ("platform", Str (cfg_platform c)) :: cfg_fields c.

Definition hexDigit (n : N) : string :=
  match String.get (N.to_nat n) "0123456789abcdef" with
  | Some c => String c EmptyString
  | None => EmptyString
  end.

(** QuoteJSONString, one code unit at a time: the two-character escapes,
    [\u00xx] for the other control characters, everything else as it is
    (surrogates, which it also escapes when unpaired, are above 255). *)
Definition quoteChar (c : ascii) : string :=
  let n := N_of_ascii c in
  if (n =? 8)%N then backslash +:+ "b"
  else if (n =? 9)%N then backslash +:+ "t"
  else if (n =? 10)%N then backslash +:+ "n"
  else if (n =? 12)%N then backslash +:+ "f"
  else if (n =? 13)%N then backslash +:+ "r"
  else if (n =? 34)%N then backslash +:+ dq
  else if (n =? 92)%N then backslash +:+ backslash
  else if (n <? 32)%N then
    backslash +:+ "u00" +:+ hexDigit (n / 16) +:+ hexDigit (n mod 16)
  else String c EmptyString.

Fixpoint quoteChars (s : string) : string :=
  match s with
  | EmptyString => EmptyString
  | String c rest => quoteChar c +:+ quoteChars rest
  end.

Definition quoteJSONString (s : string) : string := dq +:+ quoteChars s +:+ dq.

(** SerializeJSONProperty for one member, with a non-empty gap: a property
    whose value is [undefined] is left out. *)
Definition member (kv : string * Value) : option string :=
  match kv.2 with
  | Undefined => None
  | Str s => Some (quoteJSONString kv.1 +:+ ": " +:+ quoteJSONString s)
  end.

(** [JSON.stringify(config, null, 2)]: SerializeJSONObject at the top level,
    with gap and indent of two spaces. *)
Definition JSON_stringify (c : ScrapingConfig) : string :=
  match omap member (properties c) with
  | [] => "{}"
  | partial =>
      "{" +:+ nl +:+ spaces 2 +:+ join ("," +:+ nl +:+ spaces 2) partial +:+ nl +:+ "}"
  end.

(* ===================================================================== *)
(** ** The controller's state, and the effects of its methods *)
(* ===================================================================== *)

(** An [<input type="checkbox" name="platforms">] of the page. *)
Record Checkbox : Type := mkCheckbox {
  cb_value : string;
  cb_checked : bool
}.

(** A pending [setTimeout]: its delay in milliseconds, and the [configs] its
    callback closes over. *)
Record Timer : Type := mkTimer {
  timer_delay : N;
  timer_configs : list ScrapingConfig
}.

(** The fields of [AppController], with the two pieces of the browser its
    methods act on: the document and the pending timers. *)
Record State : Type := mkState {
  document : Forest;
  timers : list Timer;
  platformCheckboxes : list Checkbox;
  configContainer : option Ref;
  form : option Ref;
  resultsDiv : option Ref;
  resultsContent : option Ref;
  loadedConfigs : gset string
}.

Definition with_document (d : Forest) (st : State) : State :=
  mkState d (timers st) (platformCheckboxes st) (configContainer st) (form st)
    (resultsDiv st) (resultsContent st) (loadedConfigs st).
Definition with_timers (t : list Timer) (st : State) : State :=
  mkState (document st) t (platformCheckboxes st) (configContainer st) (form st)
    (resultsDiv st) (resultsContent st) (loadedConfigs st).
Definition with_loadedConfigs (l : gset string) (st : State) : State :=
  mkState (document st) (timers st) (platformCheckboxes st) (configContainer st)
    (form st) (resultsDiv st) (resultsContent st) l.

(** What a method does besides changing the state. [Invoke] is a ghost
    event: [getAllPlatformConfigs] and [startScraping] emit it on entry, so
    that the trace of [handleSubmit] also tells which of them ran. *)
Inductive Event : Type :=
  | PreventDefault                    (* e.preventDefault() *)
  | Alert (message : string)          (* alert(message), blocking *)
  | ConsoleError (args : list string) (* console.error(...args) *)
  | Fetch (url : string)              (* fetch(url) *)
  | ScrollIntoView (r : Ref)          (* r.scrollIntoView({ behavior: 'smooth' }) *)
  | Invoke (method : string).

(** A method: from the state to its result, the new state and its trace. *)
Definition Eff (A : Type) : Type := State → A * State * list Event.

Global Instance Eff_ret : MRet Eff := λ A a st, (a, st, []).
Global Instance Eff_bind : MBind Eff := λ A B k m st,
  let '(a, st1, t1) := m st in
  let '(b, st2, t2) := k a st1 in
  (b, st2, t1 ++ t2).

Definition get : Eff State := λ st, (st, st, []).
Definition put (st : State) : Eff unit := λ _, (tt, st, []).
Definition emit (ev : Event) : Eff unit := λ st, (tt, st, [ev]).
Definition skip : Eff unit := mret tt.

(** [arr.forEach((x, index) => ...)] on a loop body that updates [s]. *)
Fixpoint forEach {A B : Type} (body : B → A → nat → B) (l : list A) (index : nat)
    (s : B) : B :=
  match l with
  | [] => s
  | x :: rest => forEach body rest (S index) (body s x index)
  end.

(** The response of [fetch]: [response.ok] and [response.text()]. *)
Record Response : Type := mkResponse {
  ok : bool;
  text : Promise string
}.

(* ===================================================================== *)
(** ** class AppController *)
(* ===================================================================== *)

Section AppController.

(** Two functions of the browser: the HTML parser behind [innerHTML], and
    [String.prototype.toUpperCase]. *)
Variable parseHTML : string → Forest.
Variable toUpperCase : string → string.

(** [el.innerHTML = html] for the node held as [r]: its children are replaced
    by the parsed markup. *)
Definition setInnerHTML (r : Ref) (html : string) (doc : Forest) : Forest :=
  update (held_by r) (λ e _, (with_innerHTML html e, unheld (parseHTML html))) doc.

Definition modify_document (g : Forest → Forest) : Eff unit :=
  st ← get; put (with_document (g (document st)) st).

(** The constructor: the page's platform checkboxes ([querySelectorAll]), the
    four elements looked up by id, and an empty set of loaded platforms.
    [initialize] only registers the listeners, which changes nothing here. *)
Definition field_byId (r : Ref) (i : string) (doc : Forest) : option Ref * Forest :=
  match capture r i doc with
  | Some doc' => (Some r, doc')
  | None => (None, doc)
  end.

Definition AppController_new (page : Forest) (checkboxes : list Checkbox) : State :=
  let doc := unheld page in
  let '(configContainer, doc) := field_byId PlatformConfigRef "platform-config" doc in
  let '(form, doc) := field_byId ScraperFormRef "scraper-form" doc in
  let '(resultsDiv, doc) := field_byId ResultsRef "results" doc in
  let '(resultsContent, doc) := field_byId ResultsContentRef "results-content" doc in
  mkState doc [] checkboxes configContainer form resultsDiv resultsContent ∅.

Definition fragment_url (platform : string) : string :=
  "./src/presentation/views/" +:+ platform +:+ ".html".

Definition config_id (platform : string) : string := "config-" +:+ platform.

(** [document.createElement('div')] with its [id], [className] and
    [innerHTML] set as [loadPlatformConfig] sets them. *)
Definition configDiv (platform html : string) : Forest :=
  Node (mkElement [] (config_id platform) "mb-3" EmptyString Undefined html)
       (unheld (parseHTML html)) Nil.

(** [loadPlatformConfig] up to its first [await]: the guard, then the
    request. It returns the container when a fetch is now pending. *)
Definition loadPlatformConfig_begin (platform : string) : Eff (option Ref) :=
  st ← get;
  match configContainer st with
  | None => mret None
  | Some container =>
      if decide (platform ∈ loadedConfigs st) then mret None
      else emit (Fetch (fragment_url platform));; mret (Some container)
  end.

(** [loadPlatformConfig] from its first [await] on, once the promise of
    [fetch] has settled to [resp]: the rest of the [try] block, or the
    [catch]. *)
Definition loadPlatformConfig_resume (container : Ref) (resp : Promise Response)
    (platform : string) : Eff unit :=
  match resp with
  | Resolved response =>
      if ok response then
        match text response with
        | Resolved html =>
            modify_document (appendChild container (configDiv platform html));;
            st ← get;
            put (with_loadedConfigs ({[platform]} ∪ loadedConfigs st) st)
        | Rejected error =>
            emit (ConsoleError ["Error loading platform config:"; error])
        end
      else
        emit (ConsoleError ["Configuration not available for " +:+ platform])
  | Rejected error =>
      emit (ConsoleError ["Error loading platform config:"; error])
  end.

(** [loadPlatformConfig] when nothing else runs between the request and its
    response. *)
Definition loadPlatformConfig (resp : Promise Response) (platform : string) : Eff unit :=
  pending ← loadPlatformConfig_begin platform;
  match pending with
  | Some container => loadPlatformConfig_resume container resp platform
  | None => skip
  end.

Definition removePlatformConfig (platform : string) : Eff unit :=
  st ← get;
  match getElementById (config_id platform) (document st) with
  | Some _ =>
      modify_document (λ doc, default doc (removeById (config_id platform) doc));;
      st' ← get;
      put (with_loadedConfigs (loadedConfigs st' ∖ {[platform]}) st')
  | None => skip
  end.

Definition handlePlatformToggle (resp : Promise Response) (checkbox : Checkbox) : Eff unit :=
  let platform := cb_value checkbox in
  st ← get;
  match resultsDiv st with
  | Some r => modify_document (setDisplay r "none")
  | None => skip
  end;;
  if cb_checked checkbox then loadPlatformConfig resp platform
  else removePlatformConfig platform.

Definition getSelectedPlatforms (st : State) : list string :=
  forEach (λ selected checkbox _,
             if cb_checked checkbox then selected ++ [cb_value checkbox] else selected)
          (platformCheckboxes st) 0 [].

Definition getPlatformConfig (doc : Forest) (platform : string) : option ScrapingConfig :=
  let config := mkConfig platform [] in
  if decide (platform = "twitter") then
    let query := valueById "twitter-query" doc in
    let count := valueById "twitter-count" doc in
    if negb (truthy query) then None
    else Some (set_field "count" (or_else count "10") (set_field "query" query config))
  else if decide (platform = "instagram") then
    let username := valueById "instagram-username" doc in
    let type := valueById "instagram-type" doc in
    if negb (truthy username) then None
    else Some (set_field "type" type (set_field "username" username config))
  else if decide (platform = "facebook") then
    let page := valueById "facebook-page" doc in
    let contentType := valueById "facebook-content" doc in
    if negb (truthy page) then None
    else Some (set_field "contentType" contentType (set_field "page" page config))
  else if decide (platform = "reddit") then
    let subreddit := valueById "reddit-subreddit" doc in
    let sort := valueById "reddit-sort" doc in
    let limit := valueById "reddit-limit" doc in
    if negb (truthy subreddit) then None
    else Some (set_field "limit" (or_else limit "25")
                 (set_field "sort" sort (set_field "subreddit" subreddit config)))
  else None.

Definition getAllPlatformConfigs (platforms : list string) : Eff (list ScrapingConfig) :=
  emit (Invoke "getAllPlatformConfigs");;
  st ← get;
  mret (forEach (λ configs platform _,
                   match getPlatformConfig (document st) platform with
                   | Some config => configs ++ [config]
                   | None => configs
                   end)
                platforms 0 []).

Definition loadingHTML (platformsList : string) : string :=
  nl +:+ spaces 8 +:+ "<div class=" +:+ q "text-center" +:+ ">" +:+
  nl +:+ spaces 10 +:+ "<div class=" +:+ q "spinner-border text-primary" +:+
    " role=" +:+ q "status" +:+ ">" +:+
  nl +:+ spaces 12 +:+ "<span class=" +:+ q "visually-hidden" +:+ ">Loading...</span>" +:+
  nl +:+ spaces 10 +:+ "</div>" +:+
  nl +:+ spaces 10 +:+ "<p class=" +:+ q "mt-3" +:+ ">Scraping " +:+ platformsList +:+ "...</p>" +:+
  nl +:+ spaces 8 +:+ "</div>" +:+
  nl +:+ spaces 6.

(** The part of a result block before the serialized config, and after it. *)
Definition blockHead (config : ScrapingConfig) (index : nat) : string :=
  nl +:+ spaces 14 +:+ "<div class=" +:+ dq +:+ "mb-4 " +:+
    (if (0 <? index)%nat then "border-top pt-3" else EmptyString) +:+ dq +:+ ">" +:+
  nl +:+ spaces 16 +:+ "<h6 class=" +:+ q "text-primary" +:+ ">" +:+
    (toUpperCase (charAt0 (cfg_platform config)) +:+ slice1 (cfg_platform config)) +:+
    "</h6>" +:+
  nl +:+ spaces 16 +:+ "<p class=" +:+ q "text-success" +:+
    "><strong>Scraping completed!</strong></p>" +:+
  nl +:+ spaces 16 +:+ "<pre class=" +:+ q "bg-light p-3 rounded small" +:+ ">".

Definition blockTail : string :=
  "</pre>" +:+ nl +:+ spaces 14 +:+ "</div>" +:+ nl +:+ spaces 12.

Definition resultBlock (config : ScrapingConfig) (index : nat) : string :=
  blockHead config index +:+ JSON_stringify config +:+ blockTail.

Definition resultsTitle : string :=
  "<h5 class=" +:+ q "card-title" +:+ ">Scraping Results</h5>".

Definition resultsNote : string :=
  "<p class=" +:+ q "text-muted small mt-3" +:+
  ">Scraping functionality to be implemented</p>".

(** The markup the timer callback builds. *)
Definition resultsHTML (configs : list ScrapingConfig) : string :=
  let resultsHTML := resultsTitle in
  let resultsHTML :=
    forEach (λ resultsHTML config index, resultsHTML +:+ resultBlock config index)
            configs 0 resultsHTML in
  resultsHTML +:+ resultsNote.

(** The callback given to [setTimeout]. *)
Definition timerCallback (configs : list ScrapingConfig) : Eff unit :=
  st ← get;
  match resultsContent st with
  | Some content => modify_document (setInnerHTML content (resultsHTML configs))
  | None => skip
  end.

Definition startScraping (configs : list ScrapingConfig) : Eff unit :=
  emit (Invoke "startScraping");;
  st ← get;
  match resultsDiv st, resultsContent st with
  | Some results, Some content =>
      modify_document (setDisplay results "block");;
      let platformsList := join ", " (cfg_platform <$> configs) in
      modify_document (setInnerHTML content (loadingHTML platformsList));;
      emit (ScrollIntoView results);;
      st' ← get;
      put (with_timers (timers st' ++ [mkTimer 2000 configs]) st')
  | _, _ => skip
  end.

Definition handleSubmit : Eff unit :=
  emit PreventDefault;;
  st ← get;
  let selectedPlatforms := getSelectedPlatforms st in
  if (length selectedPlatforms =? 0)%nat then
    emit (Alert "Please select at least one platform")
  else
    configs ← getAllPlatformConfigs selectedPlatforms;
    if (length configs =? 0)%nat then
      emit (Alert "Please fill in all required fields for selected platforms")
    else
      startScraping configs.

(** The browser runs the oldest pending timer. *)
Definition fireTimer : Eff unit :=
  st ← get;
  match timers st with
  | [] => skip
  | t :: rest => put (with_timers rest st);; timerCallback (timer_configs t)
  end.

(** The state a method leaves, and its trace. *)
Definition state_after {A : Type} (m : Eff A) (st : State) : State := (m st).1.2.
Definition trace_of {A : Type} (m : Eff A) (st : State) : list Event := (m st).2.

End AppController.

(* ===================================================================== *)
(** ** Predicates used in the statements *)
(* ===================================================================== *)

(** [s.startsWith(pre)] *)
Fixpoint starts_with (pre s : string) : bool :=
  match pre, s with
  | EmptyString, _ => true
  | String a pre', String b s' => Ascii.eqb a b && starts_with pre' s'
  | String _ _, EmptyString => false
  end.

(** Ids of the wrappers that [loadPlatformConfig] creates: those that start
    with [config-]. *)
Definition is_config_id (i : string) : bool := starts_with "config-" i.

(** No element of the forest has such an id. This is what [index.html] and
    the view files [src/presentation/views/<platform>.html] are taken to
    satisfy: the views define the form controls of a platform, and the
    wrappers are made by the controller alone. *)
Definition config_free (f : Forest) : Prop :=
  Forall (λ i, is_config_id i = false) (ids f).

(** Content that is neither referred to by the controller nor holds a
    wrapper. *)
Definition inert (f : Forest) : Prop := refs f = [] ∧ config_free f.

(** Every wrapper in the document is unreferenced and has inert content. *)
Fixpoint sealed (f : Forest) : Prop :=
  match f with
  | Nil => True
  | Node e c s =>
      (is_config_id (el_id e) = true → el_held e = [] ∧ inert c) ∧ sealed c ∧ sealed s
  end.

(** The controller's view and the document agree. *)
Definition consistent (st : State) : Prop :=
  sealed (document st) ∧
  NoDup (filter (λ i, is_config_id i = true) (ids (document st))) ∧
  (∀ r, configContainer st = Some r → r ∈ refs (document st)) ∧
  (∀ p, p ∈ loadedConfigs st ↔ config_id p ∈ ids (document st)).

(** The markup that [loadPlatformConfig] injects for a response: the body of
    an ok response whose text could be read. *)
Definition fragment_of (resp : Promise Response) : option string :=
  match resp with
  | Resolved response =>
      if ok response then
        match text response with
        | Resolved html => Some html
        | Rejected _ => None
        end
      else None
  | Rejected _ => None
  end.

Section Runs.
Variable parseHTML : string → Forest.

(** A run of [change] events: each call of [handlePlatformToggle] with the
    checkbox that changed and the response its fetch (if any) receives. *)
Fixpoint toggles (calls : list (Promise Response * Checkbox)) : Eff unit :=
  match calls with
  | [] => skip
  | (resp, checkbox) :: rest =>
      handlePlatformToggle parseHTML resp checkbox;; toggles rest
  end.

(** The markup a response brings holds form controls, not wrappers. *)
Definition clean_fragment (resp : Promise Response) : Prop :=
  ∀ html, fragment_of resp = Some html → config_free (parseHTML html).

End Runs.

(** [r.innerHTML] of the node held as [r], when it is in the document. *)
Definition innerHTMLOf (r : Ref) (doc : Forest) : option string :=
  (λ ec, el_innerHTML ec.1) <$> find (held_by r) doc.

Section Blocks.
Variable toUpperCase : string → string.

(** One result block per config, in list order, numbered from [index]: the
    block's opening markup, the serialized config, the closing markup. *)
Fixpoint blocks (index : nat) (configs : list ScrapingConfig) : string :=
  match configs with
  | [] => EmptyString
  | config :: rest =>
      (blockHead toUpperCase config index +:+ JSON_stringify config +:+ blockTail)
      +:+ blocks (S index) rest
  end.

End Blocks.

(** An update that touches neither the id, nor the references, nor the
    children of its node. *)
Definition attribute_only (g : Element → Forest → Element * Forest) : Prop :=
  ∀ e c, el_id (g e c).1 = el_id e ∧ el_held (g e c).1 = el_held e ∧ (g e c).2 = c.

(** What [getSelectedPlatforms] keeps of a checkbox. *)
Definition selected (cb : Checkbox) : option string :=
  if cb_checked cb then Some (cb_value cb) else None.

(** The four platforms [getPlatformConfig] knows. *)
Definition supported : list string := ["twitter"; "instagram"; "facebook"; "reddit"].

(* ===================================================================== *)
(** ** A sample page *)
(* ===================================================================== *)

Module Sample.

Definition plain (i : string) (v : Value) : Element :=
  mkElement [] i EmptyString EmptyString v EmptyString.

(** [index.html], reduced to the elements the controller looks up. *)
Definition index_page : Forest :=
  Node (plain "scraper-form" Undefined)
    (Node (plain "platform-config" Undefined) Nil Nil)
    (Node (plain "results" Undefined)
       (Node (plain "results-content" Undefined) Nil Nil)
       Nil).

(** A page with the form and the results element, without the
    [results-content] element. *)
Definition page_without_content : Forest :=
  Node (plain "scraper-form" Undefined)
    (Node (plain "platform-config" Undefined) Nil Nil)
    (Node (plain "results" Undefined) Nil Nil).

Definition twitter_html : string :=
  "<input id=twitter-query><input id=twitter-count>".
Definition reddit_html : string :=
  "<input id=reddit-subreddit><select id=reddit-sort><input id=reddit-limit>".

(** A parser that knows these two fragments, with the values their controls
    start with. *)
Definition parse (html : string) : Forest :=
  if decide (html = twitter_html) then
    Node (plain "twitter-query" (Str EmptyString)) Nil
      (Node (plain "twitter-count" (Str "10")) Nil Nil)
  else if decide (html = reddit_html) then
    Node (plain "reddit-subreddit" (Str EmptyString)) Nil
      (Node (plain "reddit-sort" (Str "hot")) Nil
         (Node (plain "reddit-limit" (Str "25")) Nil Nil))
  else Nil.

(** [toUpperCase] on ASCII text. *)
Definition upper_char (c : ascii) : ascii :=
  let n := N_of_ascii c in
  if ((97 <=? n) && (n <=? 122))%N then ascii_of_N (n - 32) else c.

Fixpoint upper (s : string) : string :=
  match s with
  | EmptyString => EmptyString
  | String c rest => String (upper_char c) (upper rest)
  end.

Definition served (html : string) : Promise Response :=
  Resolved (mkResponse true (Resolved html)).

Definition checkboxes (twitter reddit : bool) : list Checkbox :=
  [mkCheckbox "twitter" twitter; mkCheckbox "reddit" reddit].

(** Nothing selected yet. *)
Definition fresh : State := AppController_new index_page (checkboxes false false).

(** Twitter and Reddit are both ticked and their fragments loaded; the user
    has typed a subreddit and left the Twitter query empty. *)
Definition half_filled : State :=
  let st := AppController_new index_page (checkboxes true true) in
  let st := state_after (toggles parse [(served twitter_html, mkCheckbox "twitter" true);
                                        (served reddit_html, mkCheckbox "reddit" true)]) st in
  with_document (typeInto "reddit-subreddit" "rust" (document st)) st.

Definition reddit_config : ScrapingConfig :=
  mkConfig "reddit" [("subreddit", Str "rust"); ("sort", Str "hot"); ("limit", Str "25")].

Definition twitter_config : ScrapingConfig :=
  mkConfig "twitter" [("query", Str "rocq"); ("count", Str "10")].

(** On the page without [results-content]: Reddit is ticked, its fragment
    loaded, and the user has typed a subreddit. *)
Definition no_results_content : State :=
  let st := AppController_new page_without_content (checkboxes false true) in
  let st := state_after (toggles parse [(served reddit_html, mkCheckbox "reddit" true)]) st in
  with_document (typeInto "reddit-subreddit" "rust" (document st)) st.

(** A first submission, for Twitter, is still waiting for its timer. *)
Definition scraping : State := state_after (startScraping parse [twitter_config]) fresh.

(** Four [change] events: Twitter on, Reddit on while the network is down,
    Reddit on again, Twitter off. *)
Definition session : list (Promise Response * Checkbox) :=
  [(served twitter_html, mkCheckbox "twitter" true);
   (Rejected "Failed to fetch", mkCheckbox "reddit" true);
   (served reddit_html, mkCheckbox "reddit" true);
   (served twitter_html, mkCheckbox "twitter" false)].

End Sample.

(* ===================================================================== *)
(** ** More predicates on the controller *)
(* ===================================================================== *)

(** The id of the control [getPlatformConfig] requires for a platform. *)
Definition required_control (platform : string) : string :=
  if decide (platform = "twitter") then "twitter-query"
  else if decide (platform = "instagram") then "instagram-username"
  else if decide (platform = "facebook") then "facebook-page"
  else if decide (platform = "reddit") then "reddit-subreddit"
  else EmptyString.

(** [r.style.display] of the node held as [r], when it is in the document. *)
Definition displayOf (r : Ref) (doc : Forest) : option string :=
  (λ ec, el_display ec.1) <$> find (held_by r) doc.

(** The characters of a string. *)
Fixpoint chars (s : string) : list ascii :=
  match s with
  | EmptyString => []
  | String c rest => c :: chars rest
  end.

(** A page that has a results area and no configuration container. *)
Definition page_without_container : Forest :=
  Node (Sample.plain "results" Undefined)
    (Node (Sample.plain "results-content" Undefined) Nil Nil)
    Nil.

(** Characters that QuoteJSONString leaves as they are: no control
    character, no double quote, no backslash. *)
Definition plain_char (c : ascii) : bool :=
  let n := N_of_ascii c in
  (32 <=? n)%N && negb (n =? 34)%N && negb (n =? 92)%N.

Definition plain_text (s : string) : bool := forallb plain_char (chars s).

(** A member written with its value as it stands between double quotes; a
    property that is [undefined] has none. *)
Definition verbatim_member (kv : string * Value) : option string :=
  match kv.2 with
  | Undefined => None
  | Str s => Some (q kv.1 +:+ ": " +:+ q s)
  end.

(** The sample page with Twitter and Reddit loaded, after the user has typed
    markup into the Twitter query. *)
Definition markup_typed : Forest :=
  typeInto "twitter-query" "<img src=x onerror=alert(1)>" (document Sample.half_filled).

(* ===================================================================== *)
(** ** The main process: WindowManager and the application lifecycle *)
(* ===================================================================== *)

(** The entries of a JavaScript [Map] with string keys, and likewise the own
    properties of an object, in insertion order. *)
Section JSMap.
Context {V : Type}.

(** [m.get(k)] *)
Fixpoint Map_get (k : string) (m : list (string * V)) : option V :=
  match m with
  | [] => None
  | (k', v) :: rest => if decide (k' = k) then Some v else Map_get k rest
  end.

(** [m.set(k, v)]: a key that is present keeps its place. *)
Fixpoint Map_set (k : string) (v : V) (m : list (string * V)) : list (string * V) :=
  match m with
  | [] => [(k, v)]
  | (k', v') :: rest =>
      if decide (k' = k) then (k', v) :: rest else (k', v') :: Map_set k v rest
  end.

(** [m.delete(k)] *)
Fixpoint Map_delete (k : string) (m : list (string * V)) : list (string * V) :=
  match m with
  | [] => []
  | (k', v') :: rest =>
      if decide (k' = k) then Map_delete k rest else (k', v') :: Map_delete k rest
  end.

(** [{ ...target, ...source }]: the properties of [source] are assigned, in
    order, over those of [target]. *)
Definition spread (target source : list (string * V)) : list (string * V) :=
  fold_left (λ acc kv, Map_set kv.1 kv.2 acc) source target.

End JSMap.

(** The values that occur in window options. *)
#[local] Set Warnings "-register-all".
Inductive JSVal : Type :=
  | JNum (n : Z)
  | JBool (b : bool)
  | JStr (s : string)
  | JObj (props : list (string * JSVal)).

(** A [BrowserWindow] object. Its ['closed'] listeners are the closures
    [() => { this.windows.delete(name) }] that [createWindow] registers:
    each is kept as the name it closes over. *)
Record BrowserWindow : Type := mkWindow {
  bw_options : list (string * JSVal);   (* the options it was constructed with *)
  bw_file : option string;              (* the file given to loadFile *)
  bw_closing : bool;                    (* close() has been called *)
  bw_destroyed : bool;                  (* 'closed' has been emitted *)
  bw_onClosed : list string
}.

(** The main process: the [windows] map of the [WindowManager] (a window is
    referred to by its index in [heap]), every [BrowserWindow] constructed
    so far, and whether [app.quit()] has been called. *)
Record Process : Type := mkProcess {
  windows : list (string * nat);
  heap : list BrowserWindow;
  quitting : bool
}.

Module WindowManager.

Definition defaults : list (string * JSVal) :=
  [("width", JNum 800);
   ("height", JNum 600);
   ("webPreferences",
    JObj [("nodeIntegration", JBool false); ("contextIsolation", JBool true)])].

Definition createWindow (name : string) (options : list (string * JSVal))
    (p : Process) : nat * Process :=
  let defaultOptions := spread defaults options in
  let window := length (heap p) in
  (window,
   mkProcess (Map_set name window (windows p))
     (heap p ++ [mkWindow defaultOptions None false false [name]])
     (quitting p)).

Definition getWindow (name : string) (p : Process) : option nat :=
  Map_get name (windows p).

(** [Array.from(this.windows.values())] *)
Definition getAllWindows (p : Process) : list nat := (windows p).*2.

(** [window.close()]: a request to close; it throws on a window that has
    been destroyed ([None]). *)
Definition close (window : nat) (p : Process) : option Process :=
  match heap p !! window with
  | Some w =>
      if bw_destroyed w then None
      else Some (mkProcess (windows p)
                   (<[window := mkWindow (bw_options w) (bw_file w) true false
                                  (bw_onClosed w)]> (heap p))
                   (quitting p))
  | None => None
  end.

Definition closeWindow (name : string) (p : Process) : option Process :=
  match getWindow name p with
  | Some window => close window p
  | None => Some p
  end.

(** The window has closed: it is destroyed and emits ['closed'], which runs
    its listeners in the order they were registered. Nothing happens for a
    window that is already destroyed. *)
Definition closed (window : nat) (p : Process) : Process :=
  match heap p !! window with
  | Some w =>
      if bw_destroyed w then p
      else mkProcess
             (fold_left (λ m name, Map_delete name m) (bw_onClosed w) (windows p))
             (<[window := mkWindow (bw_options w) (bw_file w) (bw_closing w) true
                            (bw_onClosed w)]> (heap p))
             (quitting p)
  | None => p
  end.

End WindowManager.

Module ElectronApp.

(** [mainWindow.loadFile(file)] *)
Definition loadFile (window : nat) (file : string) (p : Process) : Process :=
  match heap p !! window with
  | Some w =>
      mkProcess (windows p)
        (<[window := mkWindow (bw_options w) (Some file) (bw_closing w)
                       (bw_destroyed w) (bw_onClosed w)]> (heap p))
        (quitting p)
  | None => p
  end.

Definition createMainWindow (p : Process) : Process :=
  let '(mainWindow, p) :=
    WindowManager.createWindow "main" [("width", JNum 1200); ("height", JNum 800)] p in
  loadFile mainWindow "index.html" p.

Definition onReady (p : Process) : Process := createMainWindow p.

(** [platform] is [process.platform]. *)
Definition onWindowAllClosed (platform : string) (p : Process) : Process :=
  if decide (platform ≠ "darwin") then mkProcess (windows p) (heap p) true else p.

Definition onActivate (p : Process) : Process :=
  if (length (WindowManager.getAllWindows p) =? 0)%nat then createMainWindow p else p.

(** What happens in the main process after [initialize] has registered the
    three handlers: the application's events, and windows that close. *)
Inductive Happening : Type :=
  | WhenReady
  | WindowAllClosed
  | Activate
  | Closed (window : nat).

Definition handle (platform : string) (h : Happening) (p : Process) : Process :=
  match h with
  | WhenReady => onReady p
  | WindowAllClosed => onWindowAllClosed platform p
  | Activate => onActivate p
  | Closed window => WindowManager.closed window p
  end.

Definition run (platform : string) (hs : list Happening) (p : Process) : Process :=
  fold_left (λ p h, handle platform h p) hs p.

(** [main.ts]: a new [WindowManager], no window yet. *)
Definition main : Process := mkProcess [] [] false.

(** The options every main window is constructed with. *)
Definition mainOptions : list (string * JSVal) :=
  [("width", JNum 1200);
   ("height", JNum 800);
   ("webPreferences",
    JObj [("nodeIntegration", JBool false); ("contextIsolation", JBool true)])].

End ElectronApp.

(** Calls on the [WindowManager], mixed with windows that close. *)
Inductive ManagerOp : Type :=
  | CreateWindow (name : string) (options : list (string * JSVal))
  | CloseWindow (name : string)
  | WindowClosed (window : nat).

(** [None] when a call throws. [ready] is [app.isReady()]: before the app
    is ready [new BrowserWindow] throws, so [createWindow] does; [closeWindow]
    throws when [close] does. *)
Definition manage (ready : bool) (op : ManagerOp) (p : Process) : option Process :=
  match op with
  | CreateWindow name options =>
      if ready then Some (WindowManager.createWindow name options p).2 else None
  | CloseWindow name => WindowManager.closeWindow name p
  | WindowClosed window => Some (WindowManager.closed window p)
  end.

Fixpoint manage_all (ready : bool) (ops : list ManagerOp) (p : Process)
    : option Process :=
  match ops with
  | [] => Some p
  | op :: rest =>
      match manage ready op p with
      | Some p' => manage_all ready rest p'
      | None => None
      end
  end.

Definition is_create (op : ManagerOp) : bool :=
  match op with
  | CreateWindow _ _ => true
  | _ => false
  end.

(** Windows that have not been destroyed. *)
Definition is_alive (p : Process) (window : nat) : bool :=
  match heap p !! window with
  | Some w => negb (bw_destroyed w)
  | None => false
  end.

Definition alive (p : Process) : list nat :=
  filter (λ window, is_alive p window = true) (seq 0 (length (heap p))).

(** The names are distinct, and every registered window is alive and carries
    the one listener that unregisters its name. *)
Definition registry_sound (p : Process) : Prop :=
  NoDup (windows p).*1
  ∧ ∀ name window, (name, window) ∈ windows p →
      ∃ w, heap p !! window = Some w
           ∧ bw_destroyed w = false ∧ bw_onClosed w = [name].

(** The state of an application whose windows are all main windows: the
    registry is sound, every window ever constructed has the main window's
    options, file and listener, every window alive is registered, and at
    most one is. *)
Definition main_only (p : Process) : Prop :=
  registry_sound p
  ∧ Forall (λ w, bw_options w = ElectronApp.mainOptions
                 ∧ bw_file w = Some "index.html"
                 ∧ bw_onClosed w = ["main"]) (heap p)
  ∧ (∀ window, is_alive p window = true → window ∈ WindowManager.getAllWindows p)
  ∧ (length (windows p) ≤ 1)%nat.

(** Unfolds the monad, to read a method as a function of the state. *)
Ltac run_eff :=
  unfold state_after, trace_of, modify_document, skip, get, put, emit;
  unfold mbind, mret, Eff_bind, Eff_ret; simpl.

(* ===================================================================== *)
(** ** Facts about the document *)
(* ===================================================================== *)

Lemma has_id_true i e : has_id i e = true ↔ el_id e = i.
Proof. unfold has_id. apply bool_decide_eq_true. Qed.

Lemma held_by_true r e : held_by r e = true ↔ r ∈ el_held e.
Proof. unfold held_by. apply bool_decide_eq_true. Qed.

Lemma getElementById_None i f : getElementById i f = None ↔ i ∉ ids f.
Proof.
  unfold getElementById. induction f as [|e c IHc s IHs]; simpl.
  - split; [intros _; apply not_elem_of_nil | done].
  - rewrite not_elem_of_cons, not_elem_of_app.
    destruct (has_id i e) eqn:He.
    + apply has_id_true in He. split; [done | intros [? _]; congruence].
    + assert (i ≠ el_id e) by (intros ->; unfold has_id in He; by rewrite bool_decide_eq_true_2 in He).
      destruct (find (has_id i) c) eqn:Hc.
      * split; [done | intros (_ & Hn & _)]. by apply IHc in Hn.
      * rewrite IHs. split; [intros ?; split_and!; [done | by apply IHc | done] | tauto].
Qed.

Lemma getElementById_id i f e c : getElementById i f = Some (e, c) → el_id e = i.
Proof.
  unfold getElementById. induction f as [|e' c' IHc s IHs]; simpl; [done|].
  destruct (has_id i e') eqn:He.
  - intros [= <- <-]. by apply has_id_true.
  - destruct (find (has_id i) c'); [intros [= ->]; by apply IHc | apply IHs].
Qed.

Lemma removeById_None i f : removeById i f = None ↔ getElementById i f = None.
Proof.
  unfold getElementById. induction f as [|e c IHc s IHs]; simpl; [done|].
  destruct (has_id i e); [done|].
  destruct (removeById i c), (find (has_id i) c); simpl.
  - done.
  - destruct IHc as [_ H]. by specialize (H eq_refl).
  - destruct IHc as [H _]. by specialize (H eq_refl).
  - rewrite <- IHs. destruct (removeById i s); simpl; split; congruence.
Qed.

(** Removing by id cuts the first node with that id, and the ids below it,
    out of the document order. *)
Lemma removeById_Some i f f' :
  removeById i f = Some f' →
  ∃ e c pre post,
    getElementById i f = Some (e, c) ∧
    ids f = pre ++ (i :: ids c) ++ post ∧ (i ∉ pre) ∧ ids f' = pre ++ post.
Proof.
  unfold getElementById. revert f'.
  induction f as [|e c IHc s IHs]; intros f'; simpl; [done|].
  destruct (has_id i e) eqn:He.
  - intros [= <-]. apply has_id_true in He. exists e, c, [], (ids s).
    rewrite He. split_and!; [done | done | apply not_elem_of_nil | done].
  - assert (i ≠ el_id e) by (intros ->; unfold has_id in He; by rewrite bool_decide_eq_true_2 in He).
    destruct (removeById i c) as [c'|] eqn:Hc.
    + intros [= <-]. destruct (IHc c' eq_refl) as (e0 & c0 & pre & post & Hf & Hi & Hp & Hi').
      exists e0, c0, (el_id e :: pre), (post ++ ids s). rewrite Hf. simpl.
      split_and!; [done | | | ].
      * rewrite Hi. by rewrite <- !app_assoc.
      * rewrite not_elem_of_cons. done.
      * rewrite Hi'. by rewrite <- app_assoc.
    + apply removeById_None in Hc. unfold getElementById in Hc. rewrite Hc.
      destruct (removeById i s) as [s'|] eqn:Hs; simpl; [|done].
      intros [= <-]. destruct (IHs s' eq_refl) as (e0 & c0 & pre & post & Hf & Hi & Hp & Hi').
      exists e0, c0, (el_id e :: ids c ++ pre), post.
      split_and!; [done | | | ].
      * rewrite Hi. simpl. by rewrite <- !app_assoc.
      * rewrite not_elem_of_cons, not_elem_of_app. split_and!; [done | | done].
        by apply getElementById_None.
      * simpl. rewrite Hi'. by rewrite <- app_assoc.
Qed.

Lemma modify_held_None r g f : modify (held_by r) g f = None ↔ r ∉ refs f.
Proof.
  induction f as [|e c IHc s IHs]; simpl.
  - split; [intros _; apply not_elem_of_nil | done].
  - rewrite !not_elem_of_app. destruct (held_by r e) eqn:He.
    + apply held_by_true in He. destruct (g e c). split; [done | tauto].
    + assert (r ∉ el_held e).
      { intros Hr. apply held_by_true in Hr. congruence. }
      destruct (modify (held_by r) g c) eqn:Hc.
      * split; [done | intros (_ & Hn & _)]. by apply IHc in Hn.
      * destruct (modify (held_by r) g s) eqn:Hs; simpl.
        -- split; [done | intros (_ & _ & Hn)]. by apply IHs in Hn.
        -- split; [intros _ | done]. split_and!; [done | by apply IHc | by apply IHs].
Qed.

Lemma update_detached r g f : r ∉ refs f → update (held_by r) g f = f.
Proof. intros H. unfold update. apply (modify_held_None r g) in H. by rewrite H. Qed.

Lemma modify_attribute_only P g f f' :
  attribute_only g → modify P g f = Some f' →
  ids f' = ids f ∧ refs f' = refs f ∧ (sealed f → sealed f').
Proof.
  intros Hg. revert f'. induction f as [|e c IHc s IHs]; intros f'; simpl; [done|].
  destruct (P e).
  - destruct (Hg e c) as (Hi & Hh & Hc). destruct (g e c) as [e' c0]. simpl in *.
    intros [= <-]. simpl. rewrite Hi, Hh, Hc. done.
  - destruct (modify P g c) as [c'|].
    + intros [= <-]. destruct (IHc c' eq_refl) as (Hi & Hr & Hs). simpl.
      rewrite Hi, Hr. split_and!; [done | done |].
      intros (Hw & Hsc & Hss). split_and!; [| by apply Hs | done].
      intros Hcfg. destruct (Hw Hcfg) as (? & Hin). split; [done|].
      unfold inert, config_free in *. by rewrite Hi, Hr.
    + destruct (modify P g s) as [s'|]; simpl; [|done].
      intros [= <-]. destruct (IHs s' eq_refl) as (Hi & Hr & Hs). simpl.
      rewrite Hi, Hr. split_and!; [done | done |].
      intros (Hw & Hsc & Hss). split_and!; [done | done | by apply Hs].
Qed.

Lemma update_attribute_only P g f :
  attribute_only g →
  ids (update P g f) = ids f ∧ refs (update P g f) = refs f ∧
  (sealed f → sealed (update P g f)).
Proof.
  intros Hg. unfold update. destruct (modify P g f) as [f'|] eqn:Hm; simpl; [|done].
  by apply (modify_attribute_only P g).
Qed.

Lemma setDisplay_attribute_only d : attribute_only (λ e c, (with_display d e, c)).
Proof. by intros e c. Qed.

Lemma ids_append f new : ids (append f new) = ids f ++ ids new.
Proof.
  induction f as [|e c IHc s IHs]; simpl; [done|].
  by rewrite IHs, app_assoc.
Qed.

Lemma refs_append f new : refs (append f new) = refs f ++ refs new.
Proof.
  induction f as [|e c IHc s IHs]; simpl; [done|].
  by rewrite IHs, !app_assoc.
Qed.

Lemma config_free_sealed f : config_free f → sealed f.
Proof.
  unfold config_free. induction f as [|e c IHc s IHs]; simpl; [done|].
  rewrite Forall_cons, Forall_app. intros (He & Hc & Hs).
  split_and!; [congruence | by apply IHc | by apply IHs].
Qed.

Lemma sealed_append f new : sealed f → sealed new → sealed (append f new).
Proof.
  induction f as [|e c IHc s IHs]; simpl; [done|].
  intros (Hw & Hc & Hs) Hn. split_and!; [done | done | by apply IHs].
Qed.

(** Appending a child to the node held as [r]: the document gains the ids of
    the child, and stays sealed when the child is. *)
Lemma modify_appendChild r child f f' :
  modify (held_by r) (λ e c, (e, append c child)) f = Some f' →
  ids f' ≡ₚ ids f ++ ids child ∧
  refs f' ≡ₚ refs f ++ refs child ∧
  (sealed f → sealed child → sealed f').
Proof.
  revert f'. induction f as [|e c IHc s IHs]; intros f'; simpl; [done|].
  destruct (held_by r e) eqn:He.
  - intros [= <-]. simpl. rewrite ids_append, refs_append. split_and!.
    + f_equiv. rewrite <- !app_assoc. f_equiv. apply Permutation_app_comm.
    + rewrite <- !app_assoc. do 2 f_equiv. apply Permutation_app_comm.
    + intros (Hw & Hc & Hs) Hn. split_and!; [| by apply sealed_append | done].
      intros Hcfg. destruct (Hw Hcfg) as [Hh _].
      apply held_by_true in He. rewrite Hh in He. by apply elem_of_nil in He.
  - destruct (modify (held_by r) _ c) as [c'|] eqn:Hm.
    + intros [= <-]. destruct (IHc c' eq_refl) as (Hi & Hr & Hs). simpl.
      split_and!.
      * rewrite Hi. simpl. f_equiv. rewrite <- !app_assoc. f_equiv.
        apply Permutation_app_comm.
      * rewrite Hr. rewrite <- !app_assoc. do 2 f_equiv. apply Permutation_app_comm.
      * intros (Hw & Hsc & Hss) Hn. split_and!; [| by apply Hs | done].
        intros Hcfg. destruct (Hw Hcfg) as (_ & Hrefs & _).
        assert (r ∈ refs c) as Hin.
        { destruct (decide (r ∈ refs c)) as [|Hn']; [done|].
          apply (modify_held_None r (λ e c, (e, append c child))) in Hn'. congruence. }
        rewrite Hrefs in Hin. by apply elem_of_nil in Hin.
    + destruct (modify (held_by r) _ s) as [s'|]; simpl; [|done].
      intros [= <-]. destruct (IHs s' eq_refl) as (Hi & Hr & Hs). simpl.
      split_and!.
      * rewrite Hi. by rewrite !app_assoc.
      * rewrite Hr. by rewrite !app_assoc.
      * intros (Hw & Hsc & Hss) Hn. split_and!; [done | done | by apply Hs].
Qed.

Lemma is_config_id_config_id p : is_config_id (config_id p) = true.
Proof. reflexivity. Qed.

Lemma config_id_inj p p' : config_id p = config_id p' → p = p'.
Proof. unfold config_id. intros H. cbn in H. by simplify_eq. Qed.

Lemma config_free_not_elem f p : config_free f → config_id p ∉ ids f.
Proof.
  unfold config_free. rewrite Forall_forall. intros H Hin.
  apply H in Hin. by rewrite is_config_id_config_id in Hin.
Qed.

Lemma config_free_filter f :
  config_free f → filter (λ i, is_config_id i = true) (ids f) = [].
Proof.
  unfold config_free. induction (ids f) as [|i l IH]; [done|].
  rewrite Forall_cons. intros [Hi Hl].
  rewrite filter_cons_False by congruence. by apply IH.
Qed.

(** The node found under a wrapper's id in a sealed document is such a
    wrapper: its content is inert. *)
Lemma getElementById_sealed i f e c :
  is_config_id i = true → sealed f → getElementById i f = Some (e, c) →
  el_held e = [] ∧ inert c.
Proof.
  intros Hcfg. unfold getElementById.
  induction f as [|e' c' IHc s IHs]; simpl; [done|].
  intros (Hw & Hc & Hs). destruct (has_id i e') eqn:He.
  - intros [= <- <-]. apply has_id_true in He. apply Hw. by rewrite He.
  - destruct (find (has_id i) c') eqn:Hf.
    + intros [= ->]. by apply IHc.
    + by apply IHs.
Qed.

Lemma removeById_sealed i f f' :
  is_config_id i = true → sealed f → removeById i f = Some f' →
  sealed f' ∧ refs f' = refs f.
Proof.
  intros Hcfg. revert f'. induction f as [|e c IHc s IHs]; intros f'; simpl; [done|].
  intros (Hw & Hc & Hs). destruct (has_id i e) eqn:He.
  - intros [= <-]. apply has_id_true in He. rewrite He in Hw.
    destruct (Hw Hcfg) as (Hh & Hr & _). by rewrite Hh, Hr.
  - destruct (removeById i c) as [c'|] eqn:Hrm.
    + intros [= <-]. destruct (IHc c' Hc eq_refl) as [Hsc' Hrc']. simpl.
      rewrite Hrc'. split_and!; [| done | done | done].
      intros Hcfg'. destruct (Hw Hcfg') as (_ & _ & Hfree).
      destruct (removeById_Some _ _ _ Hrm) as (? & ? & ? & ? & Hg & _).
      assert (i ∈ ids c) as Hin.
      { destruct (decide (i ∈ ids c)) as [|Hn]; [done|].
        apply getElementById_None in Hn. congruence. }
      unfold config_free in Hfree. rewrite Forall_forall in Hfree.
      apply Hfree in Hin. congruence.
    + destruct (removeById i s) as [s'|]; simpl; [|done].
      intros [= <-]. destruct (IHs s' Hs eq_refl) as [Hss' Hrs']. simpl.
      by rewrite Hrs'.
Qed.

Lemma ids_unheld f : ids (unheld f) = ids f.
Proof. induction f as [|e c IHc s IHs]; simpl; [done|]. by rewrite IHc, IHs. Qed.

Lemma refs_unheld f : refs (unheld f) = [].
Proof. induction f as [|e c IHc s IHs]; simpl; [done|]. by rewrite IHc, IHs. Qed.

Lemma capture_Some r i f f' :
  capture r i f = Some f' →
  ids f' = ids f ∧ r ∈ refs f' ∧ (∀ x, x ∈ refs f → x ∈ refs f').
Proof.
  unfold capture. revert f'. induction f as [|e c IHc s IHs]; intros f'; simpl; [done|].
  destruct (has_id i e).
  - intros [= <-]. simpl. split_and!; [done | by left | by right].
  - destruct (modify _ _ c) as [c'|].
    + intros [= <-]. destruct (IHc c' eq_refl) as (Hi & Hr & Hsub). simpl.
      rewrite Hi. split_and!; [done | |].
      * rewrite !elem_of_app. auto.
      * intros x. rewrite !elem_of_app. intros [?|[?|?]]; auto.
    + destruct (modify _ _ s) as [s'|]; simpl; [|done].
      intros [= <-]. destruct (IHs s' eq_refl) as (Hi & Hr & Hsub). simpl.
      rewrite Hi. split_and!; [done | |].
      * rewrite !elem_of_app. auto.
      * intros x. rewrite !elem_of_app. intros [?|[?|?]]; auto.
Qed.

Lemma field_byId_spec r i f o f' :
  field_byId r i f = (o, f') →
  ids f' = ids f ∧ (∀ x, x ∈ refs f → x ∈ refs f') ∧
  (∀ x, o = Some x → x ∈ refs f').
Proof.
  unfold field_byId. destruct (capture r i f) as [f0|] eqn:Hc.
  - intros [= <- <-]. destruct (capture_Some _ _ _ _ Hc) as (Hi & Hr & Hsub).
    split_and!; [done | done |]. by intros x [= <-].
  - intros [= <- <-]. split_and!; done.
Qed.

(* ===================================================================== *)
(** ** The methods, as equations *)
(* ===================================================================== *)

Section Equations.
Variable parseHTML : string → Forest.

Lemma removePlatformConfig_eq platform st :
  removePlatformConfig platform st =
  match removeById (config_id platform) (document st) with
  | Some doc' =>
      (tt, with_loadedConfigs (loadedConfigs st ∖ {[platform]}) (with_document doc' st), [])
  | None => (tt, st, [])
  end.
Proof.
  unfold removePlatformConfig. run_eff.
  destruct (getElementById _ _) as [[e c]|] eqn:Hg.
  - destruct (removeById _ _) eqn:Hr; [done|].
    apply removeById_None in Hr. congruence.
  - apply removeById_None in Hg. by rewrite Hg.
Qed.

Lemma loadPlatformConfig_skips resp platform st :
  configContainer st = None ∨ platform ∈ loadedConfigs st →
  loadPlatformConfig parseHTML resp platform st = (tt, st, []).
Proof.
  unfold loadPlatformConfig, loadPlatformConfig_begin. run_eff.
  destruct (configContainer st); [|done].
  intros [?|?]; [done|]. by rewrite decide_True.
Qed.

Lemma loadPlatformConfig_fetches resp platform st container :
  configContainer st = Some container → platform ∉ loadedConfigs st →
  loadPlatformConfig parseHTML resp platform st =
  match fragment_of resp with
  | Some html =>
      (tt,
       with_loadedConfigs ({[platform]} ∪ loadedConfigs st)
         (with_document (appendChild container (configDiv parseHTML platform html) (document st)) st),
       [Fetch (fragment_url platform)])
  | None =>
      (tt, st,
       [Fetch (fragment_url platform);
        ConsoleError
          match resp with
          | Resolved response =>
              if ok response then
                match text response with
                | Resolved _ => []
                | Rejected error => ["Error loading platform config:"; error]
                end
              else ["Configuration not available for " +:+ platform]
          | Rejected error => ["Error loading platform config:"; error]
          end])
  end.
Proof.
  intros Hc Hl.
  unfold loadPlatformConfig, loadPlatformConfig_begin, loadPlatformConfig_resume.
  run_eff. rewrite Hc. rewrite decide_False by done. unfold fragment_of.
  destruct resp as [[[] [html|err]]|err]; done.
Qed.

Lemma handlePlatformToggle_eq resp checkbox st :
  handlePlatformToggle parseHTML resp checkbox st =
  let st1 :=
    match resultsDiv st with
    | Some r => with_document (setDisplay r "none" (document st)) st
    | None => st
    end in
  if cb_checked checkbox then loadPlatformConfig parseHTML resp (cb_value checkbox) st1
  else removePlatformConfig (cb_value checkbox) st1.
Proof.
  unfold handlePlatformToggle. run_eff.
  destruct (resultsDiv st); simpl; destruct (cb_checked checkbox);
    match goal with |- context [?m ?s] =>
      match type of (m s) with (unit * State * list Event)%type => destruct (m s) as [[[] ?] ?] end
    end; done.
Qed.

End Equations.

(* ===================================================================== *)
(** ** Submission *)
(* ===================================================================== *)

Lemma forEach_selected l index acc :
  forEach (λ selected checkbox (_ : nat),
             if cb_checked checkbox then selected ++ [cb_value checkbox] else selected)
          l index acc
  = acc ++ omap selected l.
Proof.
  revert index acc. induction l as [|cb l IH]; intros index acc; simpl.
  - by rewrite app_nil_r.
  - rewrite IH. unfold selected at 2.
    destruct (cb_checked cb); [by rewrite <- app_assoc | done].
Qed.

Lemma getSelectedPlatforms_eq st :
  getSelectedPlatforms st = omap selected (platformCheckboxes st).
Proof. unfold getSelectedPlatforms. by rewrite forEach_selected. Qed.

Lemma forEach_configs doc l index acc :
  forEach (λ configs platform (_ : nat),
             match getPlatformConfig doc platform with
             | Some config => configs ++ [config]
             | None => configs
             end)
          l index acc
  = acc ++ omap (getPlatformConfig doc) l.
Proof.
  revert index acc. induction l as [|p l IH]; intros index acc; simpl.
  - by rewrite app_nil_r.
  - rewrite IH. destruct (getPlatformConfig doc p); [by rewrite <- app_assoc | done].
Qed.

Lemma getAllPlatformConfigs_eq platforms st :
  getAllPlatformConfigs platforms st =
  (omap (getPlatformConfig (document st)) platforms, st, [Invoke "getAllPlatformConfigs"]).
Proof. unfold getAllPlatformConfigs. run_eff. by rewrite forEach_configs. Qed.

Lemma append_nil_r (s : string) : s +:+ EmptyString = s.
Proof.
  induction s as [|a s IH]; [done|].
  change (String a (s +:+ EmptyString) = String a s). by rewrite IH.
Qed.

Lemma append_assoc (s1 s2 s3 : string) : (s1 +:+ s2) +:+ s3 = s1 +:+ s2 +:+ s3.
Proof.
  induction s1 as [|a s1 IH]; [done|].
  change (String a ((s1 +:+ s2) +:+ s3) = String a (s1 +:+ s2 +:+ s3)). by rewrite IH.
Qed.

Section Submission.
Variable parseHTML : string → Forest.
Variable toUpperCase : string → string.

Lemma startScraping_eq configs st :
  startScraping parseHTML configs st =
  match resultsDiv st, resultsContent st with
  | Some results, Some content =>
      (tt,
       with_timers (timers st ++ [mkTimer 2000 configs])
         (with_document
            (setInnerHTML parseHTML content
               (loadingHTML (join ", " (cfg_platform <$> configs)))
               (setDisplay results "block" (document st)))
            st),
       [Invoke "startScraping"; ScrollIntoView results])
  | _, _ => (tt, st, [Invoke "startScraping"])
  end.
Proof.
  unfold startScraping. run_eff.
  destruct (resultsDiv st), (resultsContent st); done.
Qed.

Lemma handleSubmit_eq st :
  handleSubmit parseHTML st =
  match getSelectedPlatforms st with
  | [] => (tt, st, [PreventDefault; Alert "Please select at least one platform"])
  | selectedPlatforms =>
      match omap (getPlatformConfig (document st)) selectedPlatforms with
      | [] =>
          (tt, st,
           [PreventDefault; Invoke "getAllPlatformConfigs";
            Alert "Please fill in all required fields for selected platforms"])
      | configs =>
          let '(_, st', trace) := startScraping parseHTML configs st in
          (tt, st', PreventDefault :: Invoke "getAllPlatformConfigs" :: trace)
      end
  end.
Proof.
  unfold handleSubmit.
  unfold mbind at 1 2. unfold Eff_bind, emit, get.
  destruct (getSelectedPlatforms st) as [|p ps]; [done|].
  cbn [length Nat.eqb]. unfold mbind, Eff_bind. rewrite getAllPlatformConfigs_eq.
  destruct (omap _ (p :: ps)) as [|c cs]; [done|].
  cbn [length Nat.eqb]. by destruct (startScraping _ _ _) as [[[] ?] ?].
Qed.

Lemma fireTimer_eq st :
  fireTimer parseHTML toUpperCase st =
  match timers st with
  | [] => (tt, st, [])
  | t :: rest =>
      (tt,
       match resultsContent st with
       | Some content =>
           with_document
             (setInnerHTML parseHTML content (resultsHTML toUpperCase (timer_configs t))
                (document st))
             (with_timers rest st)
       | None => with_timers rest st
       end, [])
  end.
Proof.
  unfold fireTimer, timerCallback. run_eff.
  destruct (timers st); [done|]. simpl. by destruct (resultsContent st).
Qed.

Lemma forEach_blocks configs index acc :
  forEach (λ resultsHTML config index, resultsHTML +:+ resultBlock toUpperCase config index)
          configs index acc
  = acc +:+ blocks toUpperCase index configs.
Proof.
  revert index acc. induction configs as [|c l IH]; intros index acc; simpl.
  - by rewrite append_nil_r.
  - rewrite IH. unfold resultBlock. by rewrite !append_assoc.
Qed.

Lemma resultsHTML_blocks configs :
  resultsHTML toUpperCase configs =
  resultsTitle +:+ blocks toUpperCase 0 configs +:+ resultsNote.
Proof. unfold resultsHTML. by rewrite forEach_blocks, append_assoc. Qed.

End Submission.

Lemma find_held_None r f : find (held_by r) f = None ↔ r ∉ refs f.
Proof.
  induction f as [|e c IHc s IHs]; simpl.
  - split; [intros _; apply not_elem_of_nil | done].
  - rewrite !not_elem_of_app. destruct (held_by r e) eqn:He.
    + apply held_by_true in He. split; [done | tauto].
    + assert (r ∉ el_held e).
      { intros Hr. apply held_by_true in Hr. congruence. }
      destruct (find (held_by r) c) eqn:Hc.
      * split; [done | intros (_ & Hn & _)]. by apply IHc in Hn.
      * rewrite IHs. split; [intros ?; split_and!; [done | by apply IHc | done] | tauto].
Qed.

(** Reading back through a reference what was written through it. *)
Lemma find_update r g f :
  (∀ e c, el_held (g e c).1 = el_held e) →
  find (held_by r) (update (held_by r) g f) = (λ ec, g ec.1 ec.2) <$> find (held_by r) f.
Proof.
  intros Hg. unfold update.
  destruct (modify (held_by r) g f) as [f'|] eqn:Hm; simpl.
  - revert f' Hm. induction f as [|e c IHc s IHs]; intros f'; simpl; [done|].
    destruct (held_by r e) eqn:He.
    + specialize (Hg e c). destruct (g e c) as [e' c'] eqn:Hgec. intros [= <-]. simpl.
      unfold held_by in *. simpl in Hg. by rewrite Hg, He, Hgec.
    + destruct (modify (held_by r) g c) as [c'|] eqn:Hc.
      * intros [= <-]. simpl. rewrite He. rewrite (IHc c' eq_refl).
        destruct (find (held_by r) c) eqn:Hf; [done|].
        apply find_held_None in Hf. apply (modify_held_None r g) in Hf. congruence.
      * destruct (modify (held_by r) g s) as [s'|] eqn:Hs; simpl; [|done].
        intros [= <-]. simpl. rewrite He.
        assert (find (held_by r) c = None) as Hfc
          by by apply find_held_None, (modify_held_None r g).
        rewrite Hfc. by apply IHs.
  - apply modify_held_None, find_held_None in Hm. by rewrite Hm.
Qed.

Lemma refs_setDisplay r d f : refs (setDisplay r d f) = refs f.
Proof. apply update_attribute_only, setDisplay_attribute_only. Qed.

Lemma innerHTMLOf_setInnerHTML parseHTML r html f :
  r ∈ refs f → innerHTMLOf r (setInnerHTML parseHTML r html f) = Some html.
Proof.
  intros Hr. unfold innerHTMLOf, setInnerHTML. rewrite find_update by done.
  destruct (find (held_by r) f) eqn:Hf; [done|]. by apply find_held_None in Hf.
Qed.

Lemma attached_setInnerHTML parseHTML r html f :
  r ∈ refs f → r ∈ refs (setInnerHTML parseHTML r html f).
Proof.
  intros Hr. destruct (decide (r ∈ refs (setInnerHTML parseHTML r html f))) as [|Hn]; [done|].
  apply find_held_None in Hn. unfold setInnerHTML in Hn. rewrite find_update in Hn by done.
  destruct (find (held_by r) f) eqn:Hf; [done|]. by apply find_held_None in Hf.
Qed.

(* ===================================================================== *)
(** ** The set of loaded platforms and the document agree *)
(* ===================================================================== *)

Section Consistency.
Variable parseHTML : string → Forest.

Lemma consistent_new page checkboxes :
  config_free page → consistent (AppController_new page checkboxes).
Proof.
  intros Hfree. unfold AppController_new.
  destruct (field_byId PlatformConfigRef _ _) as [o1 d1] eqn:H1.
  destruct (field_byId ScraperFormRef _ _) as [o2 d2] eqn:H2.
  destruct (field_byId ResultsRef _ _) as [o3 d3] eqn:H3.
  destruct (field_byId ResultsContentRef _ _) as [o4 d4] eqn:H4.
  apply field_byId_spec in H1 as (I1 & S1 & C1), H2 as (I2 & S2 & _),
    H3 as (I3 & S3 & _), H4 as (I4 & S4 & _).
  assert (ids d4 = ids page) as Hids.
  { by rewrite I4, I3, I2, I1, ids_unheld. }
  assert (config_free d4) as Hfree4.
  { unfold config_free. by rewrite Hids. }
  unfold consistent. simpl. split_and!.
  - by apply config_free_sealed.
  - rewrite config_free_filter by done. apply NoDup_nil_2.
  - intros r Hr. by apply S4, S3, S2, C1.
  - intros p. split; [intros Hp; by apply not_elem_of_empty in Hp|].
    intros Hp. by apply config_free_not_elem in Hp.
Qed.

Lemma consistent_setDisplay r d st :
  consistent st → consistent (with_document (setDisplay r d (document st)) st).
Proof.
  intros (Hs & Hn & Hc & Hl).
  destruct (update_attribute_only (held_by r) _ (document st)
              (setDisplay_attribute_only d)) as (Hi & Hr & Hs').
  unfold consistent, setDisplay. simpl. rewrite Hi, Hr. split_and!; auto.
Qed.

Lemma consistent_remove platform st :
  consistent st → consistent (removePlatformConfig platform st).1.2.
Proof.
  intros (Hs & Hn & Hc & Hl). rewrite removePlatformConfig_eq.
  destruct (removeById _ _) as [doc'|] eqn:Hrm; simpl; [|done].
  destruct (removeById_Some _ _ _ Hrm) as (e & c & pre & post & Hg & Hi & Hpre & Hi').
  destruct (removeById_sealed _ _ _ (is_config_id_config_id platform) Hs Hrm)
    as [Hs' Hr'].
  destruct (getElementById_sealed _ _ _ _ (is_config_id_config_id platform) Hs Hg)
    as (_ & _ & Hfree).
  rewrite Hi in Hn. rewrite !filter_app, filter_cons_True in Hn
    by apply is_config_id_config_id.
  rewrite config_free_filter in Hn by done. simpl in Hn.
  apply NoDup_app in Hn as (Hn1 & Hn2 & Hn3).
  apply NoDup_cons in Hn3 as [Hn3 Hn4].
  assert (config_id platform ∉ post) as Hpost.
  { intros Hin. apply Hn3. apply list_elem_of_filter.
    split; [apply is_config_id_config_id | done]. }
  unfold consistent. simpl. rewrite Hr', Hi'. split_and!; [done | | done |].
  - rewrite filter_app. apply NoDup_app. split_and!; [done | | done].
    intros x Hx Hx'. apply (Hn2 x Hx). by right.
  - intros p. rewrite elem_of_difference, elem_of_singleton, Hl, Hi.
    rewrite !elem_of_app, elem_of_cons.
    split.
    + intros [[?|[[Heq|Hin]|?]] Hne]; auto.
      * apply config_id_inj in Heq. done.
      * by apply config_free_not_elem in Hin.
    + intros [Hin|Hin]; (split; [auto|]); intros ->; done.
Qed.

Lemma consistent_load resp platform st :
  clean_fragment parseHTML resp → consistent st →
  consistent (loadPlatformConfig parseHTML resp platform st).1.2.
Proof.
  intros Hclean Hcons.
  destruct (configContainer st) as [container|] eqn:Hc;
    [|by rewrite loadPlatformConfig_skips by auto].
  destruct (decide (platform ∈ loadedConfigs st)) as [Hin|Hnin];
    [by rewrite loadPlatformConfig_skips by auto|].
  rewrite (loadPlatformConfig_fetches _ _ _ _ container) by done.
  destruct (fragment_of resp) as [html|] eqn:Hf; [|done].
  specialize (Hclean html Hf). destruct Hcons as (Hs & Hn & Hcc & Hl). simpl.
  unfold appendChild, update.
  destruct (modify _ _ _) as [doc'|] eqn:Hm;
    [|apply modify_held_None in Hm; by specialize (Hcc _ Hc)].
  apply modify_appendChild in Hm as (Hi & Hr & Hs'). simpl in Hi, Hr.
  rewrite ids_unheld, app_nil_r in Hi. rewrite refs_unheld, !app_nil_r in Hr.
  assert (config_id platform ∉ ids (document st)) as Hfresh by by rewrite <- Hl.
  unfold consistent. simpl. split_and!.
  - apply Hs'; [done|]. simpl. split_and!; [|apply config_free_sealed|done].
    + intros _. split; [done|]. split; [apply refs_unheld|].
      unfold config_free. by rewrite ids_unheld.
    + unfold config_free. by rewrite ids_unheld.
  - rewrite Hi, filter_app, filter_cons_True by apply is_config_id_config_id.
    rewrite (config_free_filter (parseHTML html)) by done.
    apply NoDup_app. split_and!; [done | | apply NoDup_singleton].
    intros x Hx Hx'. apply list_elem_of_singleton in Hx' as ->.
    apply list_elem_of_filter in Hx as [_ Hx]. done.
  - intros r Hr'. rewrite Hr. by apply Hcc.
  - intros p. rewrite elem_of_union, elem_of_singleton, Hl, Hi.
    rewrite elem_of_app, elem_of_cons.
    split.
    + intros [->|?]; auto.
    + intros [?|[Heq|Hin]]; auto.
      * left. by apply config_id_inj.
      * by apply config_free_not_elem in Hin.
Qed.

Lemma consistent_toggle resp checkbox st :
  clean_fragment parseHTML resp → consistent st →
  consistent (handlePlatformToggle parseHTML resp checkbox st).1.2.
Proof.
  intros Hclean Hcons. rewrite handlePlatformToggle_eq. cbv zeta.
  assert (consistent
            match resultsDiv st with
            | Some r => with_document (setDisplay r "none" (document st)) st
            | None => st
            end) as Hcons1.
  { destruct (resultsDiv st); [by apply consistent_setDisplay | done]. }
  destruct (cb_checked checkbox).
  - by apply consistent_load.
  - by apply consistent_remove.
Qed.

Lemma consistent_toggles calls st :
  Forall (λ call, clean_fragment parseHTML call.1) calls → consistent st →
  consistent (state_after (toggles parseHTML calls) st).
Proof.
  revert st. induction calls as [|[resp checkbox] calls IH]; intros st Hall Hcons.
  - done.
  - apply Forall_cons in Hall as [Hclean Hall]. simpl in Hclean.
    pose proof (consistent_toggle resp checkbox st Hclean Hcons) as Hstep.
    specialize (IH _ Hall Hstep). revert IH.
    unfold state_after. simpl. unfold mbind, Eff_bind.
    destruct (handlePlatformToggle _ _ _ _) as [[[] st1] t1]. simpl.
    by destruct (toggles _ _ _) as [[[] st2] t2].
Qed.

End Consistency.

(* ===================================================================== *)
(** ** The serialization, on examples *)
(* ===================================================================== *)

Example JSON_stringify_reddit :
  JSON_stringify Sample.reddit_config
  = "{" +:+ nl +:+
    "  " +:+ q "platform" +:+ ": " +:+ q "reddit" +:+ "," +:+ nl +:+
    "  " +:+ q "subreddit" +:+ ": " +:+ q "rust" +:+ "," +:+ nl +:+
    "  " +:+ q "sort" +:+ ": " +:+ q "hot" +:+ "," +:+ nl +:+
    "  " +:+ q "limit" +:+ ": " +:+ q "25" +:+ nl +:+
    "}".
Proof. vm_compute. reflexivity. Qed.

(** A property whose value is [undefined] is skipped; quotes, backslashes
    and control characters are escaped. *)
Example JSON_stringify_escapes :
  JSON_stringify
    (mkConfig "instagram"
       [("username", Str ("a" +:+ dq +:+ "b" +:+ backslash +:+ nl +:+ String "001"%char "c"));
        ("type", Undefined)])
  = "{" +:+ nl +:+
    "  " +:+ q "platform" +:+ ": " +:+ q "instagram" +:+ "," +:+ nl +:+
    "  " +:+ q "username" +:+ ": " +:+
      q ("a" +:+ backslash +:+ dq +:+ "b" +:+ backslash +:+ backslash +:+
         backslash +:+ "n" +:+ backslash +:+ "u0001c") +:+ nl +:+
    "}".
Proof. vm_compute. reflexivity. Qed.

(* ===================================================================== *)
(** ** The claims *)
(* ===================================================================== *)

(** C8. [ExampleService.processMessage] passes its argument through to
    [ExampleUseCase.execute]: for every message it settles to what the use
    case settles to, which is the string ["Processed: "] followed by the
    message. *)
Theorem processMessage_passes_through (service : ExampleService.t) (m : string) :
  ExampleService.processMessage service m
    = ExampleUseCase.execute (ExampleService.useCase service) m
  ∧ ExampleService.processMessage service m = Resolved ("Processed: " +:+ m).
Proof.
  unfold ExampleService.processMessage, execute, ExampleUseCase_IService.
  unfold ExampleUseCase.execute. simpl. done.
Qed.

(** C1. [loadPlatformConfig] returns at once, without a fetch and without
    touching the state, when the container is missing or the platform is
    already in [loadedConfigs]; otherwise it fetches the platform's fragment
    and, when the fragment arrives, appends its wrapper to the container and
    adds the platform to the set. Hence ticking the checkbox of a loaded
    platform fetches nothing and adds no element. *)
Theorem loadPlatformConfig_memoized (parseHTML : string → Forest)
    (resp : Promise Response) (platform : string) (st : State) :
  let run := loadPlatformConfig parseHTML resp platform st in
  (configContainer st = None ∨ platform ∈ loadedConfigs st → run = (tt, st, []))
  ∧ (∀ container,
       configContainer st = Some container → platform ∉ loadedConfigs st →
       head run.2 = Some (Fetch (fragment_url platform))
       ∧ ∀ html, fragment_of resp = Some html →
           document run.1.2
             = appendChild container (configDiv parseHTML platform html) (document st)
           ∧ loadedConfigs run.1.2 = {[platform]} ∪ loadedConfigs st
           ∧ ∀ again, loadPlatformConfig parseHTML again platform run.1.2
                        = (tt, run.1.2, []))
  ∧ (platform ∈ loadedConfigs st →
     ∀ again,
       let toggled := handlePlatformToggle parseHTML again (mkCheckbox platform true) st in
       toggled.2 = []
       ∧ loadedConfigs toggled.1.2 = loadedConfigs st
       ∧ ids (document toggled.1.2) = ids (document st)).
Proof.
  cbv zeta. split_and!.
  - apply loadPlatformConfig_skips.
  - intros container Hc Hn.
    rewrite (loadPlatformConfig_fetches _ _ _ _ container) by done.
    split; [by destruct (fragment_of resp)|].
    intros html ->. simpl. split_and!; [done | done |].
    intros again. apply loadPlatformConfig_skips. right. simpl.
    apply elem_of_union_l, elem_of_singleton. done.
  - intros Hin again. rewrite handlePlatformToggle_eq. cbv zeta. simpl.
    rewrite loadPlatformConfig_skips.
    + simpl. destruct (resultsDiv st) as [r|]; simpl; [|done].
      split_and!; [done | done |].
      apply update_attribute_only, setDisplay_attribute_only.
    + right. by destruct (resultsDiv st).
Qed.

(** C4. Unticking a checkbox hides the results and calls
    [removePlatformConfig], which looks up the element with id
    [config-<platform>]. When there is none, nothing changes. When there is
    one, the first such element leaves the document together with its
    subtree, and the platform leaves [loadedConfigs]; if that element was
    the only one carrying the id, no element carries it afterwards. *)
Theorem removePlatformConfig_removes_wrapper (parseHTML : string → Forest)
    (platform : string) (st : State) :
  let st' := state_after (removePlatformConfig platform) st in
  let hidden :=
    match resultsDiv st with
    | Some results => with_document (setDisplay results "none" (document st)) st
    | None => st
    end in
  (∀ resp, handlePlatformToggle parseHTML resp (mkCheckbox platform false) st
           = removePlatformConfig platform hidden)
  ∧ trace_of (removePlatformConfig platform) st = []
  ∧ match getElementById (config_id platform) (document st) with
    | None => st' = st
    | Some (e, c) =>
        el_id e = config_id platform
        ∧ removeById (config_id platform) (document st) = Some (document st')
        ∧ loadedConfigs st' = loadedConfigs st ∖ {[platform]}
        ∧ (platform ∉ loadedConfigs st')
        ∧ ∃ pre post,
            ids (document st) = pre ++ (config_id platform :: ids c) ++ post
            ∧ (config_id platform ∉ pre)
            ∧ ids (document st') = pre ++ post
            ∧ (config_id platform ∉ post →
               getElementById (config_id platform) (document st') = None)
    end.
Proof.
  cbv zeta. split; [intros resp; by rewrite handlePlatformToggle_eq|].
  unfold state_after, trace_of. rewrite removePlatformConfig_eq.
  destruct (removeById _ _) as [doc'|] eqn:Hrm.
  - destruct (removeById_Some _ _ _ Hrm) as (e & c & pre & post & Hg & Hi & Hpre & Hi').
    rewrite Hg. simpl. split_and!; [done | | done | done | |].
    + by apply getElementById_id in Hg.
    + rewrite elem_of_difference, elem_of_singleton. tauto.
    + exists pre, post. split_and!; [done | done | done |].
      intros Hpost. apply getElementById_None. rewrite Hi', elem_of_app. tauto.
  - apply removeById_None in Hrm. by rewrite Hrm.
Qed.

(** C5. When the fetch of a fragment fails (the request throws, the
    response is not ok, or its body cannot be read), [loadPlatformConfig]
    writes the error to the console and does nothing else: the state, with
    the document and [loadedConfigs], is the one it started from, and the
    trace holds the fetch and the console message only. The part that runs
    after the response leaves unchanged whatever state it then finds. *)
Theorem loadPlatformConfig_failed_fetch (parseHTML : string → Forest)
    (platform : string) (st : State) :
  is_Some (configContainer st) → platform ∉ loadedConfigs st →
  (∀ error,
     loadPlatformConfig parseHTML (Rejected error) platform st
     = (tt, st, [Fetch (fragment_url platform);
                 ConsoleError ["Error loading platform config:"; error]]))
  ∧ (∀ body,
     loadPlatformConfig parseHTML (Resolved (mkResponse false body)) platform st
     = (tt, st, [Fetch (fragment_url platform);
                 ConsoleError ["Configuration not available for " +:+ platform]]))
  ∧ (∀ error,
     loadPlatformConfig parseHTML (Resolved (mkResponse true (Rejected error))) platform st
     = (tt, st, [Fetch (fragment_url platform);
                 ConsoleError ["Error loading platform config:"; error]]))
  ∧ (∀ container resp later,
     fragment_of resp = None →
     ∃ args,
       loadPlatformConfig_resume parseHTML container resp platform later
       = (tt, later, [ConsoleError args])).
Proof.
  intros [container Hc] Hn.
  split_and!;
    try (intros ?; by rewrite (loadPlatformConfig_fetches _ _ _ _ container)).
  intros c resp later. unfold fragment_of, loadPlatformConfig_resume.
  destruct resp as [[[] [html|err]]|err]; try done; intros _; by eexists.
Qed.

Lemma loadPlatformConfig_failed_fetch_witness :
  is_Some (configContainer Sample.fresh)
  ∧ ("reddit" ∉ loadedConfigs Sample.fresh)
  ∧ loadPlatformConfig Sample.parse (Rejected "Failed to fetch") "reddit" Sample.fresh
    = (tt, Sample.fresh,
       [Fetch "./src/presentation/views/reddit.html";
        ConsoleError ["Error loading platform config:"; "Failed to fetch"]]).
Proof.
  assert (is_Some (configContainer Sample.fresh)) as H1 by (by eexists).
  assert ("reddit" ∉ loadedConfigs Sample.fresh) as H2 by apply not_elem_of_empty.
  split_and!; [exact H1 | exact H2 |].
  exact (proj1 (loadPlatformConfig_failed_fetch Sample.parse "reddit" Sample.fresh H1 H2)
           "Failed to fetch").
Defined.

(** C3. When no platform checkbox is checked, [handleSubmit] shows the
    alert and does nothing else: the state (document, results area, timers,
    [loadedConfigs]) is unchanged, and the trace holds [preventDefault] and
    the alert only, so neither [getAllPlatformConfigs] nor [startScraping]
    ran. *)
Theorem handleSubmit_no_platform_selected (parseHTML : string → Forest) (st : State) :
  Forall (λ checkbox, cb_checked checkbox = false) (platformCheckboxes st) →
  handleSubmit parseHTML st
  = (tt, st, [PreventDefault; Alert "Please select at least one platform"]).
Proof.
  intros Hnone. rewrite handleSubmit_eq, getSelectedPlatforms_eq.
  assert (omap selected (platformCheckboxes st) = []) as ->; [|done].
  induction Hnone as [|cb l Hcb _ IH]; [done|].
  simpl. unfold selected at 1. by rewrite Hcb.
Qed.

Lemma handleSubmit_no_platform_selected_witness :
  handleSubmit Sample.parse Sample.fresh
  = (tt, Sample.fresh, [PreventDefault; Alert "Please select at least one platform"]).
Proof.
  apply handleSubmit_no_platform_selected.
  repeat constructor.
Defined.

(** C6. For each of the four platforms, when its required field holds a
    non-empty string, [getPlatformConfig] returns the object with [platform]
    and the fields of that platform, in this order: [query], [count] for
    twitter ([count] is ['10'] when the control is missing or empty);
    [username], [type] for instagram; [page], [contentType] for facebook;
    [subreddit], [sort], [limit] for reddit ([limit] is ['25'] when the
    control is missing or empty). *)
Theorem getPlatformConfig_supported (doc : Forest) :
  let value i := valueById i doc in
  let defaulting v d :=
    match v with
    | Str s => if decide (s = EmptyString) then Str d else Str s
    | Undefined => Str d
    end in
  (∀ query, value "twitter-query" = Str query → query ≠ EmptyString →
     getPlatformConfig doc "twitter"
     = Some (mkConfig "twitter"
               [("query", Str query);
                ("count", defaulting (value "twitter-count") "10")]))
  ∧ (∀ username, value "instagram-username" = Str username → username ≠ EmptyString →
     getPlatformConfig doc "instagram"
     = Some (mkConfig "instagram"
               [("username", Str username); ("type", value "instagram-type")]))
  ∧ (∀ page, value "facebook-page" = Str page → page ≠ EmptyString →
     getPlatformConfig doc "facebook"
     = Some (mkConfig "facebook"
               [("page", Str page); ("contentType", value "facebook-content")]))
  ∧ (∀ subreddit, value "reddit-subreddit" = Str subreddit → subreddit ≠ EmptyString →
     getPlatformConfig doc "reddit"
     = Some (mkConfig "reddit"
               [("subreddit", Str subreddit);
                ("sort", value "reddit-sort");
                ("limit", defaulting (value "reddit-limit") "25")])).
Proof.
  cbv zeta.
  assert (∀ s, s ≠ EmptyString → truthy (Str s) = true) as Htruthy.
  { intros s Hs. simpl. destruct (String.eqb_spec s EmptyString); done. }
  assert (∀ v d, or_else v d =
                 match v with
                 | Str s => if decide (s = EmptyString) then Str d else Str s
                 | Undefined => Str d
                 end) as Hor.
  { intros [|s] d; [done|]. unfold or_else. simpl.
    destruct (String.eqb_spec s EmptyString), (decide (s = EmptyString)); done. }
  unfold getPlatformConfig.
  split_and!; intros s Hv Hs; rewrite Hv, (Htruthy s Hs); simpl;
    rewrite ?Hor; reflexivity.
Qed.

Lemma getPlatformConfig_supported_witness :
  getPlatformConfig (document Sample.half_filled) "reddit" = Some Sample.reddit_config.
Proof.
  refine (proj2 (proj2 (proj2 (getPlatformConfig_supported (document Sample.half_filled))))
            "rust" _ _).
  - vm_compute. reflexivity.
  - discriminate.
Defined.

(** C10. For a platform name other than the four supported ones,
    [getPlatformConfig] returns null; [getAllPlatformConfigs] then leaves
    that platform out of the list it returns, reports nothing, and returns
    the configs of the other platforms as if it had not been selected. *)
Theorem getPlatformConfig_unsupported (doc : Forest) (platform : string) :
  platform ∉ supported →
  getPlatformConfig doc platform = None
  ∧ ∀ st before after,
      getAllPlatformConfigs (before ++ platform :: after) st
      = (omap (getPlatformConfig (document st)) before
           ++ omap (getPlatformConfig (document st)) after,
         st, [Invoke "getAllPlatformConfigs"])
      ∧ getAllPlatformConfigs (before ++ platform :: after) st
        = getAllPlatformConfigs (before ++ after) st.
Proof.
  unfold supported. rewrite !not_elem_of_cons. intros (H1 & H2 & H3 & H4 & _).
  assert (∀ d, getPlatformConfig d platform = None) as Hnone.
  { intros d. unfold getPlatformConfig. by rewrite !decide_False. }
  split; [apply Hnone|]. intros st before after.
  rewrite !getAllPlatformConfigs_eq, !omap_app. simpl. by rewrite Hnone.
Qed.

Lemma getPlatformConfig_unsupported_witness :
  getPlatformConfig (document Sample.half_filled) "linkedin" = None.
Proof.
  refine (proj1 (getPlatformConfig_unsupported (document Sample.half_filled) "linkedin" _)).
  unfold supported. rewrite !not_elem_of_cons. split_and!; try discriminate.
  apply not_elem_of_nil.
Defined.

Lemma omap_all_None {A B : Type} (f : A → option B) (l : list A) :
  Forall (λ x, f x = None) l → omap f l = [].
Proof. induction 1 as [|x l Hx _ IH]; [done|]. simpl. by rewrite Hx. Qed.

(** What the code does when required fields are missing: the submission is
    blocked exactly when every selected platform lacks its required field
    (or is unknown), so that no config is left. *)
Lemma handleSubmit_blocked_when_no_config (parseHTML : string → Forest) (st : State) :
  getSelectedPlatforms st ≠ [] →
  Forall (λ platform, getPlatformConfig (document st) platform = None)
         (getSelectedPlatforms st) →
  handleSubmit parseHTML st
  = (tt, st,
     [PreventDefault; Invoke "getAllPlatformConfigs";
      Alert "Please fill in all required fields for selected platforms"]).
Proof.
  intros Hsel Hnone. rewrite handleSubmit_eq.
  destruct (getSelectedPlatforms st) as [|p ps]; [done|].
  by rewrite (omap_all_None _ _ Hnone).
Qed.

(** C2. Twitter and Reddit are both selected, the Twitter query is empty
    and the subreddit is filled in. [handleSubmit] drops Twitter, shows no
    alert, and starts scraping Reddit alone. *)
Theorem handleSubmit_partial_fields_not_blocked :
  getSelectedPlatforms Sample.half_filled = ["twitter"; "reddit"]
  ∧ valueById "twitter-query" (document Sample.half_filled) = Str EmptyString
  ∧ getPlatformConfig (document Sample.half_filled) "twitter" = None
  ∧ trace_of (handleSubmit Sample.parse) Sample.half_filled
    = [PreventDefault; Invoke "getAllPlatformConfigs"; Invoke "startScraping";
       ScrollIntoView ResultsRef]
  ∧ timers (state_after (handleSubmit Sample.parse) Sample.half_filled)
    = [mkTimer 2000 [Sample.reddit_config]].
Proof. split_and!; vm_compute; reflexivity. Qed.

(** What one timer leaves as it is when it fires. *)
Lemma fireTimer_frame (parseHTML : string → Forest) (toUpperCase : string → string)
    (st : State) :
  let st' := state_after (fireTimer parseHTML toUpperCase) st in
  timers st' = tail (timers st)
  ∧ resultsContent st' = resultsContent st
  ∧ ∀ content, resultsContent st = Some content →
      content ∈ refs (document st) → content ∈ refs (document st').
Proof.
  cbv zeta. unfold state_after. rewrite fireTimer_eq.
  destruct (timers st) as [|t rest] eqn:Ht; simpl; [by rewrite Ht|].
  destruct (resultsContent st) as [c|] eqn:Hc; simpl; rewrite ?Hc; [|done].
  split_and!; [done | done |]. intros content [= <-] Hin.
  by apply attached_setInnerHTML.
Qed.

(** The oldest [n] timers fire, one after the other. *)
Lemma fireTimer_iter (parseHTML : string → Forest) (toUpperCase : string → string)
    (n : nat) (st : State) (content : Ref) :
  resultsContent st = Some content →
  let st' := Nat.iter n (state_after (fireTimer parseHTML toUpperCase)) st in
  timers st' = drop n (timers st)
  ∧ resultsContent st' = Some content
  ∧ (content ∈ refs (document st) → content ∈ refs (document st')).
Proof.
  intros Hc. cbv zeta. induction n as [|n (Ht & Hc' & Hin)]; [by rewrite drop_0|].
  rewrite Nat.iter_succ.
  destruct (fireTimer_frame parseHTML toUpperCase
              (Nat.iter n (state_after (fireTimer parseHTML toUpperCase)) st))
    as (Ht1 & Hc1 & Hin1).
  split_and!.
  - rewrite Ht1, Ht. clear. revert n. induction (timers st) as [|t l IH]; intros n.
    + by destruct n.
    + destruct n as [|n]; [done|]. apply IH.
  - by rewrite Hc1.
  - intros Hatt. by apply Hin1, Hin.
Qed.

(** C7, on a page whose results element has no [results-content] inside:
    the form is there, Reddit is selected and its subreddit filled in, so
    [handleSubmit] calls [startScraping] with one config; [startScraping]
    returns at its guard, the results element stays hidden, and no timer is
    set. *)
Lemma startScraping_without_results_content :
  form Sample.no_results_content = Some ScraperFormRef
  ∧ resultsDiv Sample.no_results_content = Some ResultsRef
  ∧ resultsContent Sample.no_results_content = None
  ∧ getPlatformConfig (document Sample.no_results_content) "reddit"
    = Some Sample.reddit_config
  ∧ handleSubmit Sample.parse Sample.no_results_content
    = (tt, Sample.no_results_content,
       [PreventDefault; Invoke "getAllPlatformConfigs"; Invoke "startScraping"])
  ∧ startScraping Sample.parse [Sample.reddit_config] Sample.no_results_content
    = (tt, Sample.no_results_content, [Invoke "startScraping"])
  ∧ displayOf ResultsRef (document Sample.no_results_content) = Some "none"
  ∧ timers Sample.no_results_content = [].
Proof. split_and!; vm_compute; reflexivity. Qed.

(** C7, amended. When the controller holds both the results element and the
    results-content element, [startScraping] first shows the loading state
    (display [block], the loading markup with the platform names, a scroll
    into view) and sets one timer of 2000 ms, behind the timers that earlier
    calls left pending. Once those have fired, this timer is the next; when
    it fires, the results-content element receives the title, then one
    block per config in list order, each holding
    [JSON.stringify(config, null, 2)], then the note. When the controller
    lacks either element, [startScraping] returns at once: the state is as
    it was, nothing is displayed and no timer is set. *)
Theorem startScraping_echoes_configs (parseHTML : string → Forest)
    (toUpperCase : string → string) (configs : list ScrapingConfig) (st : State) :
  let loading := loadingHTML (join ", " (cfg_platform <$> configs)) in
  let echoed :=
    resultsTitle +:+ blocks toUpperCase 0 configs +:+ resultsNote in
  let fire := state_after (fireTimer parseHTML toUpperCase) in
  let st1 := state_after (startScraping parseHTML configs) st in
  (∀ results content,
     resultsDiv st = Some results → resultsContent st = Some content →
     trace_of (startScraping parseHTML configs) st
       = [Invoke "startScraping"; ScrollIntoView results]
     ∧ document st1
       = setInnerHTML parseHTML content loading (setDisplay results "block" (document st))
     ∧ timers st1 = timers st ++ [mkTimer 2000 configs]
     ∧ (content ∈ refs (document st) → innerHTMLOf content (document st1) = Some loading)
     ∧ let st2 := Nat.iter (length (timers st)) fire st1 in
       let st3 := fire st2 in
       timers st2 = [mkTimer 2000 configs]
       ∧ trace_of (fireTimer parseHTML toUpperCase) st2 = []
       ∧ timers st3 = []
       ∧ document st3 = setInnerHTML parseHTML content echoed (document st2)
       ∧ (content ∈ refs (document st) →
          innerHTMLOf content (document st3) = Some echoed))
  ∧ (resultsDiv st = None ∨ resultsContent st = None →
     startScraping parseHTML configs st = (tt, st, [Invoke "startScraping"])).
Proof.
  cbv zeta. split.
  - intros results content Hr Hc.
    set (st1 := state_after (startScraping parseHTML configs) st).
    assert (trace_of (startScraping parseHTML configs) st
            = [Invoke "startScraping"; ScrollIntoView results]
            ∧ document st1
              = setInnerHTML parseHTML content
                  (loadingHTML (join ", " (cfg_platform <$> configs)))
                  (setDisplay results "block" (document st))
            ∧ timers st1 = timers st ++ [mkTimer 2000 configs]
            ∧ resultsContent st1 = Some content) as (Htrace & Hdoc & Htimers & Hc1).
    { unfold st1, state_after, trace_of. by rewrite startScraping_eq, Hr, Hc. }
    assert (content ∈ refs (document st) → content ∈ refs (document st1)) as Hatt.
    { intros Hin. rewrite Hdoc. apply attached_setInnerHTML. by rewrite refs_setDisplay. }
    destruct (fireTimer_iter parseHTML toUpperCase (length (timers st)) st1 content Hc1)
      as (Ht2 & Hc2 & Hin2).
    set (st2 := Nat.iter _ _ st1) in *.
    rewrite Htimers, drop_app_length in Ht2.
    split_and!; [done | done | done | | done | | | |].
    + intros Hin. rewrite Hdoc. apply innerHTMLOf_setInnerHTML. by rewrite refs_setDisplay.
    + unfold trace_of. rewrite fireTimer_eq. by rewrite Ht2.
    + unfold state_after. rewrite fireTimer_eq, Ht2, Hc2. done.
    + unfold state_after. rewrite fireTimer_eq, Ht2, Hc2. simpl.
      by rewrite resultsHTML_blocks.
    + intros Hin. unfold state_after. rewrite fireTimer_eq, Ht2, Hc2. simpl.
      rewrite resultsHTML_blocks. by apply innerHTMLOf_setInnerHTML, Hin2, Hatt.
  - intros Hnone. rewrite startScraping_eq.
    destruct Hnone as [-> | ->]; [done|]. by destruct (resultsDiv st).
Qed.

Lemma startScraping_echoes_configs_witness :
  timers Sample.scraping = [mkTimer 2000 [Sample.twitter_config]]
  ∧ innerHTMLOf ResultsContentRef
      (document
         (state_after (fireTimer Sample.parse Sample.upper)
            (state_after (fireTimer Sample.parse Sample.upper)
               (state_after (startScraping Sample.parse [Sample.reddit_config])
                  Sample.scraping))))
    = Some (resultsTitle
            +:+ (blockHead Sample.upper Sample.reddit_config 0
                 +:+ JSON_stringify Sample.reddit_config +:+ blockTail)
            +:+ resultsNote)
  ∧ startScraping Sample.parse [Sample.reddit_config] Sample.no_results_content
    = (tt, Sample.no_results_content, [Invoke "startScraping"]).
Proof.
  pose proof (startScraping_echoes_configs Sample.parse Sample.upper
                [Sample.reddit_config] Sample.scraping) as [Hecho _].
  pose proof (startScraping_echoes_configs Sample.parse Sample.upper
                [Sample.reddit_config] Sample.no_results_content) as [_ Hguard].
  split_and!.
  - reflexivity.
  - refine (proj2 (proj2 (proj2 (proj2 (proj2 (proj2 (proj2 (proj2
              (Hecho ResultsRef ResultsContentRef eq_refl eq_refl)))))))) _).
    vm_compute. repeat constructor.
  - apply Hguard. by right.
Defined.

(** C9. Start from the controller as constructed on a page none of whose
    elements has an id of the form [config-<...>], and run any sequence of
    [handlePlatformToggle] calls, each with the response its fetch gets,
    where the fragments served hold no element with such an id either. Then
    a platform is in [loadedConfigs] if and only if the document has an
    element with id [config-<platform>]. *)
Theorem loadedConfigs_iff_wrapper_in_document (parseHTML : string → Forest)
    (page : Forest) (checkboxes : list Checkbox)
    (calls : list (Promise Response * Checkbox)) (platform : string) :
  config_free page →
  Forall (λ call, clean_fragment parseHTML call.1) calls →
  let st := state_after (toggles parseHTML calls) (AppController_new page checkboxes) in
  platform ∈ loadedConfigs st
  ↔ is_Some (getElementById (config_id platform) (document st)).
Proof.
  intros Hpage Hcalls. cbv zeta.
  destruct (consistent_toggles parseHTML calls _ Hcalls
              (consistent_new page checkboxes Hpage)) as (_ & _ & _ & Hl).
  rewrite Hl. rewrite <- not_eq_None_Some, getElementById_None.
  split; [auto|]. apply dec_stable.
Qed.

(** Why the fetch has to be one step there: when a second request starts
    before the first response has arrived, both responses are injected, and
    after one removal the document still holds a wrapper of a platform that
    is no longer in [loadedConfigs]. *)
Example overlapping_loads_disagree :
  let step {A : Type} (m : Eff A) (st : State) : State := state_after m st in
  let st := Sample.fresh in
  let st := step (loadPlatformConfig_begin "twitter") st in
  let st := step (loadPlatformConfig_begin "twitter") st in
  let st := step (loadPlatformConfig_resume Sample.parse PlatformConfigRef
                    (Sample.served Sample.twitter_html) "twitter") st in
  let st := step (loadPlatformConfig_resume Sample.parse PlatformConfigRef
                    (Sample.served Sample.twitter_html) "twitter") st in
  let st := step (removePlatformConfig "twitter") st in
  elements (loadedConfigs st) = []
  ∧ ids (document st)
    = ["scraper-form"; "platform-config"; "config-twitter"; "twitter-query";
       "twitter-count"; "results"; "results-content"].
Proof. vm_compute. split; reflexivity. Qed.

Lemma loadedConfigs_iff_wrapper_in_document_witness :
  let st := state_after (toggles Sample.parse Sample.session) Sample.fresh in
  ("reddit" ∈ loadedConfigs st
   ↔ is_Some (getElementById "config-reddit" (document st)))
  ∧ is_Some (getElementById "config-reddit" (document st))
  ∧ getElementById "config-twitter" (document st) = None.
Proof.
  cbv zeta. split_and!.
  - apply (loadedConfigs_iff_wrapper_in_document Sample.parse Sample.index_page
             (Sample.checkboxes false false) Sample.session "reddit").
    + repeat constructor.
    + repeat constructor; intros html [= <-]; vm_compute; repeat constructor.
  - vm_compute. by eexists.
  - vm_compute. reflexivity.
Defined.

(* ===================================================================== *)
(** ** More on the form controller *)
(* ===================================================================== *)

(** X1. [getPlatformConfig] returns null exactly when the platform is none
    of the four or its required control is missing or empty. A config it
    returns carries the platform's name, and its first field is the
    required one, with the non-empty string read from the control. *)
Theorem getPlatformConfig_null_iff (doc : Forest) (platform : string) :
  (getPlatformConfig doc platform = None
   ↔ platform ∉ supported
     ∨ truthy (valueById (required_control platform) doc) = false)
  ∧ ∀ config,
      getPlatformConfig doc platform = Some config →
      cfg_platform config = platform
      ∧ platform ∈ supported
      ∧ ∃ key s,
          head (cfg_fields config) = Some (key, Str s)
          ∧ s ≠ EmptyString
          ∧ valueById (required_control platform) doc = Str s.
Proof.
  assert (∀ v, truthy v = true → ∃ s, v = Str s ∧ s ≠ EmptyString) as Htruthy.
  { intros [|s]; simpl; [done|]. intros Hs. exists s. split; [done|].
    intros ->. done. }
  unfold getPlatformConfig, required_control, supported.
  repeat case_decide; subst; simpl.
  1-4: match goal with |- context [truthy ?v] => destruct (truthy v) eqn:Ht end;
    simpl; (split;
      [ split; [try done; auto | intros [Hn|?]; [|done]; exfalso; apply Hn;
                                  rewrite !elem_of_cons; auto 6]
      | try done; intros config [= <-]; simpl;
        destruct (Htruthy _ Ht) as (s & Hv & Hs); rewrite Hv;
        (split_and!; [done | rewrite !elem_of_cons; auto 6 |
          do 2 eexists; split_and!; [cbv; reflexivity | exact Hs | reflexivity]]) ]).
  split; [|done]. split; [intros _; left|done].
  rewrite !not_elem_of_cons. split_and!; try done. apply not_elem_of_nil.
Qed.

(** X2. [getSelectedPlatforms] returns the values of the checked
    checkboxes, in the order of the page: a platform is in the list exactly
    when some checked checkbox has it as its value, and the list is no
    longer than the list of checkboxes. *)
Theorem getSelectedPlatforms_checked_values (st : State) :
  getSelectedPlatforms st
  = cb_value <$> filter (λ checkbox, cb_checked checkbox = true) (platformCheckboxes st)
  ∧ (∀ platform,
       platform ∈ getSelectedPlatforms st
       ↔ ∃ checkbox, checkbox ∈ platformCheckboxes st
                     ∧ cb_checked checkbox = true ∧ cb_value checkbox = platform)
  ∧ (length (getSelectedPlatforms st) ≤ length (platformCheckboxes st))%nat.
Proof.
  assert (getSelectedPlatforms st
          = cb_value <$> filter (λ checkbox, cb_checked checkbox = true)
                           (platformCheckboxes st)) as Heq.
  { rewrite getSelectedPlatforms_eq.
    induction (platformCheckboxes st) as [|cb l IH]; [done|].
    destruct (cb_checked cb) eqn:Hcb.
    - rewrite filter_cons_True by done. cbn. unfold selected at 1. rewrite Hcb.
      f_equal. exact IH.
    - rewrite filter_cons_False by congruence. cbn. unfold selected at 1.
      rewrite Hcb. exact IH. }
  split_and!; [done | |].
  - intros platform. rewrite Heq, list_elem_of_fmap. split.
    + intros (cb & -> & Hin). apply list_elem_of_filter in Hin as [Hc Hin]. eauto.
    + intros (cb & Hin & Hc & <-). exists cb. split; [done|].
      apply list_elem_of_filter. done.
  - rewrite Heq, length_fmap. apply length_filter.
Qed.

(** X3. What [handleSubmit] does is decided by the configs of the selected
    platforms that have their required field. In every case it fetches
    nothing and leaves [loadedConfigs] and the checkboxes alone. It shows an
    alert, and changes nothing, exactly when there is no such config.
    Otherwise it shows no alert and calls [startScraping] with exactly these
    configs, in checkbox order; with a results area this sets one timer of
    2000 ms that holds them. *)
Theorem handleSubmit_outcome (parseHTML : string → Forest) (st : State) :
  let configs := omap (getPlatformConfig (document st)) (getSelectedPlatforms st) in
  let st' := state_after (handleSubmit parseHTML) st in
  let trace := trace_of (handleSubmit parseHTML) st in
  loadedConfigs st' = loadedConfigs st
  ∧ platformCheckboxes st' = platformCheckboxes st
  ∧ (∀ url, Fetch url ∉ trace)
  ∧ head trace = Some PreventDefault
  ∧ ((∃ message, Alert message ∈ trace) ↔ configs = [])
  ∧ (configs = [] → st' = st)
  ∧ (configs ≠ [] →
     (handleSubmit parseHTML st
      = let '(_, st1, t1) := startScraping parseHTML configs st in
        (tt, st1, PreventDefault :: Invoke "getAllPlatformConfigs" :: t1))
     ∧ (is_Some (resultsDiv st) → is_Some (resultsContent st) →
        timers st' = timers st ++ [mkTimer 2000 configs])).
Proof.
  cbv zeta. unfold state_after, trace_of. rewrite handleSubmit_eq.
  assert (∀ (x : Event) l, Forall (λ y, x ≠ y) l → x ∉ l) as Hnotin.
  { intros x l Hl Hin. rewrite Forall_forall in Hl. by apply (Hl x). }
  destruct (getSelectedPlatforms st) as [|p ps] eqn:Hsel.
  { simpl. split_and!; try done.
    - intros url. apply Hnotin. by repeat constructor.
    - split; [done|]. intros _. exists "Please select at least one platform".
      rewrite !elem_of_cons. auto. }
  destruct (omap _ (p :: ps)) as [|c cs] eqn:Hcfg.
  { simpl. split_and!; try done.
    - intros url. apply Hnotin. by repeat constructor.
    - split; [done|]. intros _. eexists. rewrite !elem_of_cons. auto. }
  rewrite startScraping_eq.
  destruct (resultsDiv st) as [r|], (resultsContent st) as [rc|]; simpl.
  all: split_and!; try done.
  all: try (intros url; apply Hnotin; by repeat constructor).
  all: try (split; [|done]; intros (m & Hin); exfalso; revert Hin;
            apply Hnotin; by repeat constructor).
  all: intros _; split; [done|]; try done.
  all: try (by intros [? [=]]); by intros _ [? [=]].
Qed.

Lemma removeById_append i f e k :
  i ∉ ids f → el_id e = i → removeById i (append f (Node e k Nil)) = Some f.
Proof.
  intros Hn He. induction f as [|e' c IHc s IHs]; simpl.
  - unfold has_id. by rewrite bool_decide_eq_true_2.
  - simpl in Hn. rewrite not_elem_of_cons, not_elem_of_app in Hn.
    destruct Hn as (Hne & Hc & Hs).
    unfold has_id at 1. rewrite bool_decide_eq_false_2 by done.
    assert (removeById i c = None) as ->
      by by apply removeById_None, getElementById_None.
    simpl. by rewrite IHs.
Qed.

Lemma removeById_appendChild i r f f' e k :
  i ∉ ids f → el_id e = i →
  modify (held_by r) (λ e0 c, (e0, append c (Node e k Nil))) f = Some f' →
  removeById i f' = Some f.
Proof.
  intros Hn He. revert f'. induction f as [|e' c IHc s IHs]; intros f'; simpl; [done|].
  simpl in Hn. rewrite not_elem_of_cons, not_elem_of_app in Hn.
  destruct Hn as (Hne & Hc & Hs).
  assert (has_id i e' = false) as Hid
    by (unfold has_id; by rewrite bool_decide_eq_false_2).
  destruct (held_by r e').
  - intros [= <-]. simpl. rewrite Hid. by rewrite removeById_append.
  - destruct (modify _ _ c) as [c'|].
    + intros [= <-]. simpl. rewrite Hid. by rewrite (IHc Hc c' eq_refl).
    + destruct (modify _ _ s) as [s'|]; simpl; [|done].
      intros [= <-]. simpl. rewrite Hid.
      assert (removeById i c = None) as ->
        by by apply removeById_None, getElementById_None.
      simpl. by rewrite (IHs Hs s' eq_refl).
Qed.

(** X4. Loading a fragment and then removing it is a round trip. From a
    state in which the platform is not loaded, no element has the wrapper's
    id and the container is in the document, a successful
    [loadPlatformConfig] puts the platform in [loadedConfigs] and its
    wrapper in the document, and [removePlatformConfig] then gives back
    exactly the state before the load. *)
Theorem load_then_remove_restores (parseHTML : string → Forest)
    (platform html : string) (st : State) (container : Ref) :
  configContainer st = Some container →
  container ∈ refs (document st) →
  config_id platform ∉ ids (document st) →
  platform ∉ loadedConfigs st →
  let loaded :=
    state_after (loadPlatformConfig parseHTML
                   (Resolved (mkResponse true (Resolved html))) platform) st in
  platform ∈ loadedConfigs loaded
  ∧ is_Some (getElementById (config_id platform) (document loaded))
  ∧ removePlatformConfig platform loaded = (tt, st, []).
Proof.
  intros Hc Hatt Hfresh Hnl. cbv zeta. unfold state_after.
  rewrite (loadPlatformConfig_fetches _ _ _ _ container) by done. simpl.
  unfold appendChild, update, configDiv.
  destruct (modify _ _ _) as [doc'|] eqn:Hm;
    [|by apply modify_held_None in Hm].
  simpl.
  assert (removeById (config_id platform) doc' = Some (document st)) as Hrm.
  { eapply removeById_appendChild; [exact Hfresh | | exact Hm]. done. }
  split_and!.
  - apply elem_of_union_l, elem_of_singleton. done.
  - rewrite <- not_eq_None_Some. intros Hnone.
    apply removeById_None in Hnone. congruence.
  - rewrite removePlatformConfig_eq. simpl. rewrite Hrm.
    destruct st as [d t cbs cc f rd rc l]. unfold with_loadedConfigs, with_document.
    simpl in *. do 2 f_equal. f_equal.
    apply set_eq. intros x. rewrite elem_of_difference, elem_of_union, elem_of_singleton.
    split; [by intros [[->|?] ?] | intros Hx; split; [auto|]; by intros ->].
Qed.

Lemma load_then_remove_restores_witness :
  removePlatformConfig "twitter"
    (state_after (loadPlatformConfig Sample.parse
                    (Resolved (mkResponse true (Resolved Sample.twitter_html)))
                    "twitter") Sample.fresh)
  = (tt, Sample.fresh, []).
Proof.
  refine (proj2 (proj2 (load_then_remove_restores Sample.parse "twitter"
                          Sample.twitter_html Sample.fresh PlatformConfigRef
                          eq_refl _ _ _))).
  - vm_compute. repeat constructor.
  - apply config_free_not_elem. repeat constructor.
  - apply not_elem_of_empty.
Defined.

Lemma starts_with_app pre s :
  starts_with pre s = true → ∃ rest, s = pre +:+ rest.
Proof.
  revert s. induction pre as [|a pre IH]; intros s; simpl.
  - intros _. by exists s.
  - destruct s as [|b s]; [done|]. intros [Hab Hs]%andb_prop.
    apply Ascii.eqb_eq in Hab as ->. destruct (IH s Hs) as [rest ->]. by exists rest.
Qed.

Lemma is_config_id_inv i : is_config_id i = true → ∃ p, i = config_id p.
Proof. intros H. by apply starts_with_app in H. Qed.

(** X5. After any run of [handlePlatformToggle] calls in which each fetch is
    one step, from the controller as constructed (page and fragments without
    [config-] ids, as for C9), the document holds one wrapper for each
    loaded platform and no other element with a [config-] id: the ids of
    the wrappers are pairwise distinct, and there are as many as there are
    platforms in [loadedConfigs]. *)
Theorem wrappers_unique_after_toggles (parseHTML : string → Forest)
    (page : Forest) (checkboxes : list Checkbox)
    (calls : list (Promise Response * Checkbox)) :
  config_free page →
  Forall (λ call, clean_fragment parseHTML call.1) calls →
  let st := state_after (toggles parseHTML calls) (AppController_new page checkboxes) in
  let wrappers := filter (λ i, is_config_id i = true) (ids (document st)) in
  NoDup wrappers
  ∧ wrappers ≡ₚ config_id <$> elements (loadedConfigs st)
  ∧ length wrappers = size (loadedConfigs st).
Proof.
  intros Hpage Hcalls. cbv zeta.
  destruct (consistent_toggles parseHTML calls _ Hcalls
              (consistent_new page checkboxes Hpage)) as (_ & Hnd & _ & Hl).
  set (st := state_after _ _) in *.
  assert (filter (λ i, is_config_id i = true) (ids (document st))
          ≡ₚ config_id <$> elements (loadedConfigs st)) as Hperm.
  { apply NoDup_Permutation; [done | |].
    - apply (@NoDup_fmap_2 _ _ config_id config_id_inj), NoDup_elements.
    - intros i. rewrite list_elem_of_filter, list_elem_of_fmap. split.
      + intros [Hc Hin]. destruct (is_config_id_inv _ Hc) as [p ->].
        exists p. split; [done|]. by apply elem_of_elements, Hl.
      + intros (p & -> & Hin). split; [apply is_config_id_config_id|].
        by apply Hl, elem_of_elements. }
  split_and!; [done | done |].
  rewrite Hperm, length_fmap. done.
Qed.

Lemma wrappers_unique_after_toggles_witness :
  let st := state_after (toggles Sample.parse Sample.session) Sample.fresh in
  length (filter (λ i, is_config_id i = true) (ids (document st)))
  = size (loadedConfigs st).
Proof.
  cbv zeta.
  refine (proj2 (proj2 (wrappers_unique_after_toggles Sample.parse Sample.index_page
                          (Sample.checkboxes false false) Sample.session _ _))).
  - repeat constructor.
  - repeat constructor; intros html [= <-]; vm_compute; repeat constructor.
Defined.

(** X6. One call of [handlePlatformToggle] sets no timer, shows no alert,
    and leaves the checkboxes and the controller's element references as
    they are. For an unchecked checkbox it issues no request. For a checked
    one it issues at most one request, to the view file of the checkbox's
    platform, and writes at most one console error after it. *)
Theorem handlePlatformToggle_effects (parseHTML : string → Forest)
    (resp : Promise Response) (checkbox : Checkbox) (st : State) :
  let st' := state_after (handlePlatformToggle parseHTML resp checkbox) st in
  let trace := trace_of (handlePlatformToggle parseHTML resp checkbox) st in
  let request := Fetch (fragment_url (cb_value checkbox)) in
  timers st' = timers st
  ∧ platformCheckboxes st' = platformCheckboxes st
  ∧ (configContainer st', form st', resultsDiv st', resultsContent st')
    = (configContainer st, form st, resultsDiv st, resultsContent st)
  ∧ (cb_checked checkbox = false → trace = [])
  ∧ (trace = [] ∨ trace = [request] ∨ ∃ args, trace = [request; ConsoleError args])
  ∧ (trace = [request] →
     fragment_of resp ≠ None ∧ cb_value checkbox ∈ loadedConfigs st').
Proof.
  cbv zeta. unfold state_after, trace_of. rewrite handlePlatformToggle_eq. cbv zeta.
  set (st1 := match resultsDiv st with Some _ => _ | None => st end).
  assert (timers st1 = timers st ∧ platformCheckboxes st1 = platformCheckboxes st
          ∧ (configContainer st1, form st1, resultsDiv st1, resultsContent st1)
            = (configContainer st, form st, resultsDiv st, resultsContent st))
    as (Ht & Hb & Hf).
  { unfold st1. destruct (resultsDiv st) eqn:Hr; simpl; rewrite ?Hr; auto. }
  destruct (cb_checked checkbox).
  - destruct (configContainer st1) as [container|] eqn:Hc;
      [|rewrite loadPlatformConfig_skips by auto; simpl;
        split_and!; rewrite ?Hc; auto; done].
    destruct (decide (cb_value checkbox ∈ loadedConfigs st1)) as [Hin|Hnin];
      [rewrite loadPlatformConfig_skips by auto; simpl;
       split_and!; rewrite ?Hc; auto; done|].
    rewrite (loadPlatformConfig_fetches _ _ _ _ container) by done.
    destruct (fragment_of resp) as [html|] eqn:Hfr; simpl.
    + split_and!; rewrite ?Hc; auto; [done|]. intros _. split; [done|].
      apply elem_of_union_l, elem_of_singleton. done.
    + split_and!; rewrite ?Hc; auto; [done | right; right; by eexists | done].
  - rewrite removePlatformConfig_eq.
    destruct (removeById _ _); simpl; split_and!; auto; done.
Qed.

Lemma find_append P c child :
  find P child = None →
  fst <$> find P (append c child) = fst <$> find P c.
Proof.
  intros Hchild. induction c as [|e c0 _ s IHs]; simpl; [by rewrite Hchild|].
  destruct (P e); [done|]. destruct (find P c0); [done|]. exact IHs.
Qed.

Lemma find_modify_append P Q child f f' :
  find P child = None →
  modify Q (λ e c, (e, append c child)) f = Some f' →
  fst <$> find P f' = fst <$> find P f.
Proof.
  intros Hchild. revert f'. induction f as [|e c IHc s IHs]; intros f'; simpl; [done|].
  destruct (Q e).
  - intros [= <-]. simpl. destruct (P e); [done|].
    pose proof (find_append P c child Hchild) as Hc.
    destruct (find P (append c child)), (find P c); simpl in Hc; try done.
  - destruct (modify Q _ c) as [c'|].
    + intros [= <-]. simpl. destruct (P e); [done|].
      specialize (IHc c' eq_refl).
      destruct (find P c'), (find P c); simpl in IHc; try done.
    + destruct (modify Q _ s) as [s'|]; simpl; [|done].
      intros [= <-]. simpl. destruct (P e); [done|].
      destruct (find P c); [done|]. by apply IHs.
Qed.

Lemma find_removeById r i f f' :
  is_config_id i = true → sealed f → removeById i f = Some f' →
  fst <$> find (held_by r) f' = fst <$> find (held_by r) f.
Proof.
  intros Hcfg. revert f'. induction f as [|e c IHc s IHs]; intros f'; simpl; [done|].
  intros (Hw & Hc & Hs). destruct (has_id i e) eqn:He.
  - intros [= <-]. apply has_id_true in He. rewrite He in Hw.
    destruct (Hw Hcfg) as (Hh & Hr & _).
    unfold held_by at 2. rewrite Hh, bool_decide_eq_false_2 by apply not_elem_of_nil.
    assert (find (held_by r) c = None) as ->; [|done].
    apply find_held_None. rewrite Hr. apply not_elem_of_nil.
  - destruct (removeById i c) as [c'|] eqn:Hrm.
    + intros [= <-]. simpl. destruct (held_by r e); [done|].
      specialize (IHc c' Hc eq_refl).
      destruct (find (held_by r) c'), (find (held_by r) c); simpl in IHc; try done.
    + destruct (removeById i s) as [s'|]; simpl; [|done].
      intros [= <-]. simpl. destruct (held_by r e); [done|].
      destruct (find (held_by r) c); [done|]. by apply IHs.
Qed.

Lemma displayOf_fst r f f' :
  fst <$> find (held_by r) f' = fst <$> find (held_by r) f →
  displayOf r f' = displayOf r f.
Proof.
  unfold displayOf. intros H.
  destruct (find (held_by r) f') as [[e' c']|], (find (held_by r) f) as [[e c]|];
    simpl in *; congruence.
Qed.

Lemma displayOf_setDisplay r d f : r ∈ refs f → displayOf r (setDisplay r d f) = Some d.
Proof.
  intros Hr. unfold displayOf, setDisplay. rewrite find_update by done.
  destruct (find (held_by r) f) eqn:Hf; [done|]. by apply find_held_None in Hf.
Qed.

Section Hiding.
Variable parseHTML : string → Forest.

Lemma toggles_snoc calls resp checkbox st :
  state_after (toggles parseHTML (calls ++ [(resp, checkbox)])) st
  = state_after (handlePlatformToggle parseHTML resp checkbox)
      (state_after (toggles parseHTML calls) st).
Proof.
  revert st. induction calls as [|[resp0 cb0] calls IH]; intros st.
  - unfold state_after. simpl. unfold mbind, Eff_bind, skip, mret, Eff_ret.
    by destruct (handlePlatformToggle _ _ _ _) as [[[] ?] ?].
  - specialize (IH (state_after (handlePlatformToggle parseHTML resp0 cb0) st)).
    revert IH. unfold state_after. simpl. unfold mbind, Eff_bind.
    destruct (handlePlatformToggle parseHTML resp0 cb0 st) as [[[] st1] t1]. simpl.
    destruct (toggles _ (calls ++ _) st1) as [[[] ?] ?].
    destruct (toggles _ calls st1) as [[[] ?] ?]. simpl.
    by destruct (handlePlatformToggle _ _ _ _) as [[[] ?] ?].
Qed.

Lemma toggle_keeps_resultsDiv resp checkbox st :
  resultsDiv (state_after (handlePlatformToggle parseHTML resp checkbox) st)
  = resultsDiv st.
Proof.
  unfold state_after. rewrite handlePlatformToggle_eq. cbv zeta.
  set (st1 := match resultsDiv st with Some _ => _ | None => st end).
  assert (resultsDiv st1 = resultsDiv st) as <-.
  { unfold st1. by destruct (resultsDiv st) eqn:Hr. }
  clearbody st1. destruct (cb_checked checkbox).
  - destruct (configContainer st1) as [container|] eqn:Hc;
      [|by rewrite loadPlatformConfig_skips by auto].
    destruct (decide (cb_value checkbox ∈ loadedConfigs st1)) as [Hin|Hnin];
      [by rewrite loadPlatformConfig_skips by auto|].
    rewrite (loadPlatformConfig_fetches _ _ _ _ container) by done.
    by destruct (fragment_of resp).
  - rewrite removePlatformConfig_eq. by destruct (removeById _ _).
Qed.

(** A toggle keeps the references where they are, up to their order. *)
Lemma toggle_keeps_refs resp checkbox st :
  clean_fragment parseHTML resp → consistent st →
  let st' := state_after (handlePlatformToggle parseHTML resp checkbox) st in
  refs (document st') ≡ₚ refs (document st) ∧ resultsDiv st' = resultsDiv st.
Proof.
  intros Hclean Hcons. cbv zeta.
  split; [|apply toggle_keeps_resultsDiv].
  unfold state_after. rewrite handlePlatformToggle_eq. cbv zeta.
  set (st1 := match resultsDiv st with Some _ => _ | None => st end).
  assert (refs (document st1) = refs (document st) ∧ consistent st1) as [Hr1 Hc1].
  { unfold st1. destruct (resultsDiv st); [|done].
    split; [apply refs_setDisplay | by apply consistent_setDisplay]. }
  rewrite <- Hr1. clearbody st1. clear Hr1 Hcons.
  destruct (cb_checked checkbox).
  - destruct (configContainer st1) as [container|] eqn:Hc;
      [|by rewrite loadPlatformConfig_skips by auto].
    destruct (decide (cb_value checkbox ∈ loadedConfigs st1)) as [Hin|Hnin];
      [by rewrite loadPlatformConfig_skips by auto|].
    rewrite (loadPlatformConfig_fetches _ _ _ _ container) by done.
    destruct (fragment_of resp) as [html|]; [|done]. simpl.
    unfold appendChild, update. destruct (modify _ _ _) as [doc'|] eqn:Hm; [|done].
    apply modify_appendChild in Hm as (_ & Hr & _). simpl in Hr.
    by rewrite refs_unheld, !app_nil_r in Hr.
  - rewrite removePlatformConfig_eq.
    destruct (removeById _ _) as [doc'|] eqn:Hrm; [|done]. simpl.
    destruct Hc1 as (Hs & _).
    by destruct (removeById_sealed _ _ _ (is_config_id_config_id _) Hs Hrm) as [_ ->].
Qed.

(** A toggle leaves the results element hidden. *)
Lemma toggle_hides_results resp checkbox st r :
  clean_fragment parseHTML resp → consistent st →
  resultsDiv st = Some r → r ∈ refs (document st) →
  displayOf r (document (state_after (handlePlatformToggle parseHTML resp checkbox) st))
  = Some "none".
Proof.
  intros Hclean Hcons Hres Hatt.
  unfold state_after. rewrite handlePlatformToggle_eq. cbv zeta. rewrite Hres.
  pose proof (consistent_setDisplay r "none" st Hcons) as Hc1.
  pose proof (displayOf_setDisplay r "none" _ Hatt) as Hd.
  set (st1 := with_document _ st) in *.
  change (setDisplay r "none" (document st)) with (document st1) in Hd.
  clearbody st1.
  destruct (cb_checked checkbox).
  - destruct (configContainer st1) as [container|] eqn:Hc;
      [|by rewrite loadPlatformConfig_skips by auto].
    destruct (decide (cb_value checkbox ∈ loadedConfigs st1)) as [Hin|Hnin];
      [by rewrite loadPlatformConfig_skips by auto|].
    rewrite (loadPlatformConfig_fetches _ _ _ _ container) by done.
    destruct (fragment_of resp) as [html|]; [|done]. simpl.
    unfold appendChild, update. destruct (modify _ _ _) as [doc'|] eqn:Hm; [|done].
    simpl. rewrite <- Hd. apply displayOf_fst.
    eapply find_modify_append; [|exact Hm].
    apply find_held_None. simpl. rewrite refs_unheld. apply not_elem_of_nil.
  - rewrite removePlatformConfig_eq.
    destruct (removeById _ _) as [doc'|] eqn:Hrm; [|done]. simpl.
    rewrite <- Hd. apply displayOf_fst.
    destruct Hc1 as (Hs & _).
    by apply (find_removeById r _ _ _ (is_config_id_config_id _) Hs Hrm).
Qed.

Lemma toggles_keep_refs calls st :
  Forall (λ call, clean_fragment parseHTML call.1) calls → consistent st →
  let st' := state_after (toggles parseHTML calls) st in
  refs (document st') ≡ₚ refs (document st) ∧ resultsDiv st' = resultsDiv st.
Proof.
  cbv zeta. revert st. induction calls as [|[resp checkbox] calls IH]; intros st Hall Hcons.
  - done.
  - apply Forall_cons in Hall as [Hclean Hall]. simpl in Hclean.
    pose proof (consistent_toggle parseHTML resp checkbox st Hclean Hcons) as Hstep.
    destruct (toggle_keeps_refs resp checkbox st Hclean Hcons) as [Hr Hd].
    destruct (IH _ Hall Hstep) as [Hr' Hd']. revert Hr Hd Hr' Hd'.
    unfold state_after. simpl. unfold mbind, Eff_bind.
    destruct (handlePlatformToggle _ _ _ _) as [[[] st1] t1]. simpl.
    destruct (toggles _ _ _) as [[[] st2] t2]. simpl.
    intros Hr Hd Hr' Hd'. split; [by rewrite Hr' | congruence].
Qed.

Lemma new_resultsDiv_attached page checkboxes r :
  resultsDiv (AppController_new page checkboxes) = Some r →
  r ∈ refs (document (AppController_new page checkboxes)).
Proof.
  unfold AppController_new.
  destruct (field_byId PlatformConfigRef _ _) as [o1 d1] eqn:H1.
  destruct (field_byId ScraperFormRef _ _) as [o2 d2] eqn:H2.
  destruct (field_byId ResultsRef _ _) as [o3 d3] eqn:H3.
  destruct (field_byId ResultsContentRef _ _) as [o4 d4] eqn:H4.
  apply field_byId_spec in H3 as (_ & _ & C3), H4 as (_ & S4 & _).
  simpl. intros Hr. by apply S4, C3.
Qed.

End Hiding.

(** X7. Changing the platform selection hides the results. From the
    controller as constructed on a page with a results element (page and
    fragments without [config-] ids, each fetch one step), after any
    non-empty run of [handlePlatformToggle] calls the results element is in
    the document with [style.display] equal to ['none']. *)
Theorem results_hidden_after_toggles (parseHTML : string → Forest)
    (page : Forest) (checkboxes : list Checkbox)
    (calls : list (Promise Response * Checkbox)) (results : Ref) :
  config_free page →
  Forall (λ call, clean_fragment parseHTML call.1) calls →
  calls ≠ [] →
  resultsDiv (AppController_new page checkboxes) = Some results →
  displayOf results
    (document (state_after (toggles parseHTML calls)
                 (AppController_new page checkboxes)))
  = Some "none".
Proof.
  intros Hpage Hcalls Hne Hres.
  destruct calls as [|[resp checkbox] calls _] using rev_ind; [done|].
  apply Forall_app in Hcalls as [Hinit Hlast].
  apply Forall_cons in Hlast as [Hclean _]. simpl in Hclean.
  pose proof (consistent_new page checkboxes Hpage) as Hc0.
  pose proof (consistent_toggles parseHTML calls _ Hinit Hc0) as Hc.
  destruct (toggles_keep_refs parseHTML calls _ Hinit Hc0) as [Hr Hd].
  rewrite toggles_snoc. apply toggle_hides_results; [done | done | congruence |].
  rewrite Hr. by apply new_resultsDiv_attached.
Qed.

Lemma results_hidden_after_toggles_witness :
  displayOf ResultsRef
    (document (state_after (toggles Sample.parse Sample.session) Sample.fresh))
  = Some "none".
Proof.
  apply (results_hidden_after_toggles Sample.parse Sample.index_page
           (Sample.checkboxes false false) Sample.session ResultsRef).
  - repeat constructor.
  - repeat constructor; intros html [= <-]; vm_compute; repeat constructor.
  - discriminate.
  - reflexivity.
Defined.

Lemma capture_None r i f : capture r i f = None ↔ i ∉ ids f.
Proof.
  unfold capture. induction f as [|e c IHc s IHs]; simpl.
  - split; [intros _; apply not_elem_of_nil | done].
  - rewrite not_elem_of_cons, not_elem_of_app. destruct (has_id i e) eqn:He.
    + apply has_id_true in He. split; [done | intros [? _]; congruence].
    + assert (i ≠ el_id e)
        by (intros ->; unfold has_id in He; by rewrite bool_decide_eq_true_2 in He).
      destruct (modify _ _ c) eqn:Hc.
      * split; [done | intros (_ & Hn & _)]. by apply IHc in Hn.
      * destruct (modify _ _ s) eqn:Hs; simpl.
        -- split; [done | intros (_ & _ & Hn)]. by apply IHs in Hn.
        -- split; [intros _ | done]. split_and!; [done | by apply IHc | by apply IHs].
Qed.

Lemma field_byId_found r i f :
  is_Some (field_byId r i f).1 ↔ i ∈ ids f.
Proof.
  unfold field_byId. destruct (capture r i f) eqn:Hc; simpl.
  - split; [intros _ | by eexists].
    destruct (decide (i ∈ ids f)) as [|Hn]; [done|].
    apply (capture_None r) in Hn. congruence.
  - apply capture_None in Hc. split; [by intros [? ?] | done].
Qed.

(** X8. The constructor leaves the ids of the page as they are, starts with
    no platform loaded and no timer, and sets each of its four element
    fields to null exactly when the page has no element with the id it
    looks up; a field that is not null refers to an element of the
    document. *)
Theorem AppController_new_fields (page : Forest) (checkboxes : list Checkbox) :
  let st := AppController_new page checkboxes in
  ids (document st) = ids page
  ∧ loadedConfigs st = ∅
  ∧ timers st = []
  ∧ platformCheckboxes st = checkboxes
  ∧ (is_Some (configContainer st) ↔ "platform-config" ∈ ids page)
  ∧ (is_Some (form st) ↔ "scraper-form" ∈ ids page)
  ∧ (is_Some (resultsDiv st) ↔ "results" ∈ ids page)
  ∧ (is_Some (resultsContent st) ↔ "results-content" ∈ ids page)
  ∧ ∀ r, configContainer st = Some r ∨ form st = Some r
         ∨ resultsDiv st = Some r ∨ resultsContent st = Some r →
         r ∈ refs (document st).
Proof.
  cbv zeta. unfold AppController_new.
  pose proof (field_byId_found PlatformConfigRef "platform-config" (unheld page)) as F1.
  destruct (field_byId PlatformConfigRef _ _) as [o1 d1] eqn:H1.
  pose proof (field_byId_found ScraperFormRef "scraper-form" d1) as F2.
  destruct (field_byId ScraperFormRef _ _) as [o2 d2] eqn:H2.
  pose proof (field_byId_found ResultsRef "results" d2) as F3.
  destruct (field_byId ResultsRef _ _) as [o3 d3] eqn:H3.
  pose proof (field_byId_found ResultsContentRef "results-content" d3) as F4.
  destruct (field_byId ResultsContentRef _ _) as [o4 d4] eqn:H4.
  apply field_byId_spec in H1 as (I1 & S1 & C1), H2 as (I2 & S2 & C2),
    H3 as (I3 & S3 & C3), H4 as (I4 & S4 & C4).
  rewrite ids_unheld in I1. simpl in *.
  rewrite I3, I2, I1 in F4. rewrite I2, I1 in F3. rewrite I1 in F2.
  rewrite ids_unheld in F1.
  split_and!; try done.
  - by rewrite I4, I3, I2, I1.
  - intros r [?|[?|[?|?]]]; auto.
Qed.

Lemma AppController_new_fields_aux (page : Forest) (checkboxes : list Checkbox) :
  loadedConfigs (AppController_new page checkboxes) = ∅
  ∧ (is_Some (configContainer (AppController_new page checkboxes))
     → "platform-config" ∈ ids page).
Proof.
  unfold AppController_new.
  pose proof (field_byId_found PlatformConfigRef "platform-config" (unheld page)) as F1.
  destruct (field_byId PlatformConfigRef _ _) as [o1 d1].
  destruct (field_byId ScraperFormRef _ _) as [o2 d2].
  destruct (field_byId ResultsRef _ _) as [o3 d3].
  destruct (field_byId ResultsContentRef _ _) as [o4 d4].
  rewrite ids_unheld in F1. simpl in *. split; [done | apply F1].
Qed.

Section NoContainer.
Variable parseHTML : string → Forest.

Lemma toggles_without_container calls st :
  configContainer st = None → loadedConfigs st = ∅ →
  let run := toggles parseHTML calls st in
  run.2 = [] ∧ loadedConfigs run.1.2 = ∅ ∧ configContainer run.1.2 = None.
Proof.
  cbv zeta. revert st. induction calls as [|[resp checkbox] calls IH]; intros st Hc Hl.
  - done.
  - simpl. unfold mbind, Eff_bind.
    assert (∃ st1, handlePlatformToggle parseHTML resp checkbox st = (tt, st1, [])
                   ∧ configContainer st1 = None ∧ loadedConfigs st1 = ∅)
      as (st1 & -> & Hc1 & Hl1).
    { rewrite handlePlatformToggle_eq. cbv zeta.
      set (st0 := match resultsDiv st with Some _ => _ | None => st end).
      assert (configContainer st0 = None ∧ loadedConfigs st0 = ∅) as [Hc0 Hl0].
      { unfold st0. by destruct (resultsDiv st). }
      clearbody st0. destruct (cb_checked checkbox).
      - rewrite loadPlatformConfig_skips by auto. by exists st0.
      - rewrite removePlatformConfig_eq.
        destruct (removeById _ _) as [doc'|]; [|by exists st0].
        eexists. split; [done|]. simpl. split; [done|]. rewrite Hl0.
        apply set_eq. intros x. rewrite elem_of_difference.
        split; [by intros [? _] | intros Hx; by apply not_elem_of_empty in Hx]. }
    destruct (IH st1 Hc1 Hl1) as (Ht & Hl2 & Hc2).
    destruct (toggles _ _ _) as [[[] st2] t2]. simpl in *. by subst.
Qed.

End NoContainer.

(** X9. On a page without the element [platform-config] the controller
    never asks for a fragment: whatever the checkboxes do, no run of
    [handlePlatformToggle] calls fetches, logs or alerts anything, and
    [loadedConfigs] stays empty. *)
Theorem no_container_no_fetch (parseHTML : string → Forest) (page : Forest)
    (checkboxes : list Checkbox) (calls : list (Promise Response * Checkbox)) :
  "platform-config" ∉ ids page →
  trace_of (toggles parseHTML calls) (AppController_new page checkboxes) = []
  ∧ loadedConfigs (state_after (toggles parseHTML calls)
                     (AppController_new page checkboxes)) = ∅.
Proof.
  intros Hno.
  destruct (AppController_new_fields_aux page checkboxes) as (Hl & Hc).
  destruct (toggles_without_container parseHTML calls
              (AppController_new page checkboxes)) as (Ht & Hl' & _); [|done|done].
  destruct (configContainer _) eqn:Hcc; [|done].
  exfalso. apply Hno, Hc. by eexists.
Qed.

Lemma no_container_no_fetch_witness :
  trace_of (toggles Sample.parse Sample.session)
    (AppController_new page_without_container (Sample.checkboxes false false))
  = [].
Proof.
  refine (proj1 (no_container_no_fetch Sample.parse page_without_container
                   (Sample.checkboxes false false) Sample.session _)).
  intros Hin. vm_compute in Hin.
  repeat (apply elem_of_cons in Hin as [Hin|Hin]; [discriminate|]).
  by apply elem_of_nil in Hin.
Defined.

Lemma quoteChar_plain c : plain_char c = true → quoteChar c = String c EmptyString.
Proof.
  unfold plain_char, quoteChar. cbv zeta.
  intros [[H32 H34]%andb_prop H92]%andb_prop.
  apply N.leb_le in H32. apply negb_true_iff in H34, H92.
  rewrite H34, H92.
  repeat match goal with
  | |- context [(?n =? ?m)%N] =>
      destruct (N.eqb_spec n m) as [Heq|_]; [rewrite Heq in H32; by vm_compute in H32|]
  end.
  destruct (N.ltb_spec (N_of_ascii c) 32); [lia | done].
Qed.

Lemma quoteChars_plain s : plain_text s = true → quoteChars s = s.
Proof.
  unfold plain_text. induction s as [|c s IH]; simpl; [done|].
  intros [Hc Hs]%andb_prop. rewrite quoteChar_plain by done.
  change (String c (quoteChars s) = String c s). by rewrite IH.
Qed.

(** Serializing a config none of whose strings needs an escape. *)
Lemma JSON_stringify_plain (platform : string) (fields : list (string * Value)) :
  plain_text platform = true →
  Forall (λ kv, plain_text kv.1 = true ∧ ∀ s, kv.2 = Str s → plain_text s = true)
         fields →
  JSON_stringify (mkConfig platform fields)
  = "{" +:+ nl +:+ "  " +:+
    join ("," +:+ nl +:+ "  ")
      ((q "platform" +:+ ": " +:+ q platform) :: omap verbatim_member fields)
    +:+ nl +:+ "}".
Proof.
  intros Hp Hfields.
  assert (omap member fields = omap verbatim_member fields) as Hsame.
  { induction Hfields as [|[k v] l [Hk Hv] _ IH]; [done|].
    change (omap member ((k, v) :: l))
      with (from_option (λ y, y :: omap member l) (omap member l) (member (k, v))).
    change (omap verbatim_member ((k, v) :: l))
      with (from_option (λ y, y :: omap verbatim_member l) (omap verbatim_member l)
              (verbatim_member (k, v))).
    rewrite IH. unfold member, verbatim_member, quoteJSONString, q. simpl in *.
    destruct v as [|s]; [done|].
    by rewrite (quoteChars_plain k), (quoteChars_plain s) by auto. }
  unfold JSON_stringify, properties. cbn [cfg_platform cfg_fields].
  change (omap member (("platform", Str platform) :: fields))
    with ((quoteJSONString "platform" +:+ ": " +:+ quoteJSONString platform)
          :: omap member fields).
  rewrite Hsame. unfold quoteJSONString. rewrite (quoteChars_plain platform) by done.
  reflexivity.
Qed.

(** X18. The values echoed into the results are quoted for JSON and not
    escaped for HTML. Take a config that [getPlatformConfig] returns, whose
    values (what the user typed or chose in the controls) hold no control
    character, double quote or backslash. The markup that
    [startScraping]'s timer assigns to [innerHTML] then holds each value
    character for character between double quotes, whatever else it
    contains, angle brackets and ampersands included. *)
Theorem echoed_values_are_verbatim (toUpperCase : string → string) (doc : Forest)
    (platform : string) (config : ScrapingConfig) :
  getPlatformConfig doc platform = Some config →
  Forall (λ kv, ∀ s, kv.2 = Str s → plain_text s = true) (cfg_fields config) →
  let json :=
    "{" +:+ nl +:+ "  " +:+
    join ("," +:+ nl +:+ "  ")
      ((q "platform" +:+ ": " +:+ q platform)
       :: omap verbatim_member (cfg_fields config))
    +:+ nl +:+ "}" in
  JSON_stringify config = json
  ∧ resultsHTML toUpperCase [config]
    = resultsTitle +:+ blockHead toUpperCase config 0 +:+ json +:+ blockTail
      +:+ resultsNote.
Proof.
  intros Hget Hvalues. cbv zeta.
  assert (JSON_stringify config
          = "{" +:+ nl +:+ "  " +:+
            join ("," +:+ nl +:+ "  ")
              ((q "platform" +:+ ": " +:+ q platform)
               :: omap verbatim_member (cfg_fields config))
            +:+ nl +:+ "}") as Hjson.
  { assert (config = mkConfig platform (cfg_fields config)
            ∧ plain_text platform = true
            ∧ Forall (λ kv : string * Value, plain_text kv.1 = true) (cfg_fields config))
      as (Hconfig & Hplatform & Hkeys).
    { revert Hget. unfold getPlatformConfig.
      repeat case_decide; subst; try done;
        match goal with |- context [truthy ?v] => destruct (truthy v) end;
        try done; intros [= <-]; split_and!; try done;
        repeat (apply Forall_cons; split; [done|]); apply Forall_nil_2. }
    rewrite Hconfig at 1. apply JSON_stringify_plain; [done|].
    rewrite Forall_forall in Hkeys, Hvalues. apply Forall_forall.
    intros kv Hin. split; [by apply Hkeys | by apply Hvalues]. }
  split; [exact Hjson|].
  rewrite resultsHTML_blocks. cbn [blocks]. rewrite Hjson, append_nil_r.
  by rewrite !append_assoc.
Qed.

Lemma echoed_values_are_verbatim_witness :
  getPlatformConfig markup_typed "twitter"
  = Some (mkConfig "twitter"
            [("query", Str "<img src=x onerror=alert(1)>"); ("count", Str "10")])
  ∧ JSON_stringify (mkConfig "twitter"
                      [("query", Str "<img src=x onerror=alert(1)>"); ("count", Str "10")])
    = "{" +:+ nl +:+
      "  " +:+ q "platform" +:+ ": " +:+ q "twitter" +:+ "," +:+ nl +:+
      "  " +:+ q "query" +:+ ": " +:+ q "<img src=x onerror=alert(1)>" +:+ "," +:+ nl +:+
      "  " +:+ q "count" +:+ ": " +:+ q "10" +:+ nl +:+
      "}".
Proof.
  split; [reflexivity|].
  refine (proj1 (echoed_values_are_verbatim Sample.upper markup_typed "twitter"
                   (mkConfig "twitter"
                      [("query", Str "<img src=x onerror=alert(1)>"); ("count", Str "10")])
                   eq_refl _)).
  repeat (apply Forall_cons; split; [by intros s [= <-]|]). apply Forall_nil_2.
Defined.

(* ===================================================================== *)
(** ** The window registry *)
(* ===================================================================== *)

Section JSMapFacts.
Context {V : Type}.
Implicit Types (m : list (string * V)) (k : string) (v : V).

Lemma Map_get_set_eq k v m : Map_get k (Map_set k v m) = Some v.
Proof.
  induction m as [|[k' v'] m IH]; simpl; repeat (case_decide; simpl); congruence.
Qed.

Lemma Map_get_set_ne k k' v m : k ≠ k' → Map_get k' (Map_set k v m) = Map_get k' m.
Proof.
  intros Hne.
  induction m as [|[k0 v0] m IH]; simpl; repeat (case_decide; simpl); congruence.
Qed.

Lemma Map_get_None k m : Map_get k m = None ↔ k ∉ m.*1.
Proof.
  induction m as [|[k' v'] m IH]; simpl.
  - split; [intros _; apply not_elem_of_nil | done].
  - rewrite not_elem_of_cons. destruct (decide (k' = k)) as [->|Hne].
    + split; [done | by intros [? _]].
    + rewrite IH. split; [by intros ? | by intros [_ ?]].
Qed.

Lemma Map_get_Some k v m : Map_get k m = Some v → (k, v) ∈ m.
Proof.
  induction m as [|[k' v'] m IH]; simpl; [done|].
  destruct (decide (k' = k)) as [->|Hne].
  - intros [= ->]. by left.
  - intros H. right. by apply IH.
Qed.

Lemma Map_get_elem_of k v m : NoDup m.*1 → (k, v) ∈ m → Map_get k m = Some v.
Proof.
  induction m as [|[k' v'] m IH]; simpl; [by intros _ ?%elem_of_nil|].
  intros [Hk Hnd]%NoDup_cons [Heq|Hin]%elem_of_cons.
  - injection Heq as -> ->. by case_decide.
  - destruct (decide (k' = k)) as [->|Hne]; [|by apply IH].
    exfalso. apply Hk. apply list_elem_of_fmap. by exists (k, v).
Qed.

Lemma Map_set_keys_old k v m : k ∈ m.*1 → (Map_set k v m).*1 = m.*1.
Proof.
  induction m as [|[k' v'] m IH]; simpl; [by intros ?%elem_of_nil|].
  intros Hin. case_decide as Hk; simpl; [done|].
  apply elem_of_cons in Hin as [?|Hin]; [congruence|]. f_equal. by apply IH.
Qed.

Lemma Map_set_keys_new k v m : k ∉ m.*1 → (Map_set k v m).*1 = m.*1 ++ [k].
Proof.
  induction m as [|[k' v'] m IH]; simpl; [done|].
  intros [Hne Hnin]%not_elem_of_cons. case_decide as Hk; simpl; [congruence|].
  f_equal. by apply IH.
Qed.

Lemma Map_set_NoDup k v m : NoDup m.*1 → NoDup (Map_set k v m).*1.
Proof.
  intros Hnd. destruct (decide (k ∈ m.*1)) as [Hin|Hnin].
  - by rewrite Map_set_keys_old.
  - rewrite Map_set_keys_new by done.
    apply NoDup_app. split_and!; [done | | apply NoDup_singleton].
    intros x Hx ->%list_elem_of_singleton. done.
Qed.

Lemma elem_of_Map_set k v m k0 v0 :
  NoDup m.*1 →
  (k0, v0) ∈ Map_set k v m → (k0 = k ∧ v0 = v) ∨ (k0 ≠ k ∧ (k0, v0) ∈ m).
Proof.
  intros Hnd Hin. pose proof (Map_set_NoDup k v m Hnd) as Hnd'.
  apply (Map_get_elem_of _ _ _ Hnd') in Hin.
  destruct (decide (k0 = k)) as [->|Hne].
  - rewrite Map_get_set_eq in Hin. left. split; congruence.
  - rewrite Map_get_set_ne in Hin by done. right. split; [done|].
    by apply Map_get_Some.
Qed.

Lemma elem_of_Map_delete k m k0 v0 :
  (k0, v0) ∈ Map_delete k m ↔ k0 ≠ k ∧ (k0, v0) ∈ m.
Proof.
  induction m as [|[k' v'] m IH]; simpl.
  - split; [by intros ?%elem_of_nil | by intros [_ ?%elem_of_nil]].
  - destruct (decide (k' = k)) as [->|Hne].
    + rewrite IH, elem_of_cons. split; [intros [? ?]; auto|].
      intros [Hne [Heq|?]]; [|done]. injection Heq as -> ->. done.
    + rewrite !elem_of_cons, IH. split.
      * intros [Heq|[? ?]]; [|auto]. injection Heq as -> ->. auto.
      * intros [? [?|?]]; auto.
Qed.

Lemma Map_delete_keys k m : (Map_delete k m).*1 = filter (λ k', k' ≠ k) m.*1.
Proof.
  induction m as [|[k' v'] m IH]; simpl; [done|].
  destruct (decide (k' = k)) as [->|Hne].
  - rewrite filter_cons_False by (intros ?; done). exact IH.
  - rewrite filter_cons_True by done. simpl. f_equal. exact IH.
Qed.

Lemma Map_delete_NoDup k m : NoDup m.*1 → NoDup (Map_delete k m).*1.
Proof. intros Hnd. rewrite Map_delete_keys. by apply NoDup_filter. Qed.

Lemma Map_get_delete_eq k m : Map_get k (Map_delete k m) = None.
Proof.
  apply Map_get_None. rewrite Map_delete_keys, list_elem_of_filter. by intros [? _].
Qed.

Lemma Map_get_delete_ne k k' m : k ≠ k' → Map_get k' (Map_delete k m) = Map_get k' m.
Proof.
  intros Hne.
  induction m as [|[k0 v0] m IH]; simpl; [done|];
    repeat (case_decide; simpl); congruence.
Qed.

Lemma Map_get_spread k (target source : list (string * V)) :
  NoDup source.*1 →
  Map_get k (spread target source)
  = match Map_get k source with
    | Some v => Some v
    | None => Map_get k target
    end.
Proof.
  unfold spread. revert target.
  induction source as [|[k0 v0] source IH]; intros target; simpl; [done|].
  intros [Hk Hnd]%NoDup_cons. rewrite IH by done.
  destruct (decide (k0 = k)) as [->|Hne].
  - apply Map_get_None in Hk. rewrite Hk. apply Map_get_set_eq.
  - destruct (Map_get k source); [done|]. by apply Map_get_set_ne.
Qed.

End JSMapFacts.

Lemma elem_of_delete_all (names : list string) (m : list (string * nat)) name window :
  (name, window) ∈ fold_left (λ m name, Map_delete name m) names m
  ↔ (name ∉ names) ∧ (name, window) ∈ m.
Proof.
  revert m. induction names as [|n names IH]; intros m; simpl.
  - split; [intros ?; split; [apply not_elem_of_nil | done] | by intros [_ ?]].
  - rewrite IH, elem_of_Map_delete, not_elem_of_cons. tauto.
Qed.

Lemma delete_all_NoDup (names : list string) (m : list (string * nat)) :
  NoDup m.*1 → NoDup (fold_left (λ m name, Map_delete name m) names m).*1.
Proof.
  revert m. induction names as [|n names IH]; intros m Hnd; simpl; [done|].
  by apply IH, Map_delete_NoDup.
Qed.

Lemma registry_sound_lt p name window :
  registry_sound p → (name, window) ∈ windows p → window < length (heap p).
Proof.
  intros [_ Hs] Hin. destruct (Hs _ _ Hin) as (w & Hw & _).
  by apply lookup_lt_Some in Hw.
Qed.

Lemma createWindow_sound name options p :
  registry_sound p → registry_sound (WindowManager.createWindow name options p).2.
Proof.
  intros Hsound. pose proof Hsound as [Hnd Hs]. split; simpl.
  - by apply Map_set_NoDup.
  - intros n window Hin.
    apply (elem_of_Map_set _ _ _ _ _ Hnd) in Hin as [[-> ->]|[Hne Hin]].
    + eexists. split; [apply list_lookup_middle; done|]. done.
    + destruct (Hs _ _ Hin) as (w & Hw & Ha & Hn). exists w.
      split; [|done]. rewrite lookup_app_l; [done|]. by apply lookup_lt_Some in Hw.
Qed.

Lemma close_sound window p p' :
  registry_sound p → WindowManager.close window p = Some p' →
  registry_sound p' ∧ windows p' = windows p ∧ quitting p' = quitting p
  ∧ length (heap p') = length (heap p)
  ∧ ∀ other, is_alive p' other = is_alive p other.
Proof.
  intros [Hnd Hs]. unfold WindowManager.close.
  destruct (heap p !! window) as [w|] eqn:Hw; [|done].
  destruct (bw_destroyed w) eqn:Hd; [done|]. intros [= <-]. simpl.
  split_and!; [split; [done|] | done | done | apply length_insert |].
  - simpl. intros n other Hin. destruct (Hs _ _ Hin) as (w' & Hw' & Ha & Hn).
    destruct (decide (other = window)) as [->|Hne].
    + eexists. split; [apply list_lookup_insert_eq; by apply lookup_lt_Some in Hw|].
      simpl. split; [done|]. congruence.
    + exists w'. by rewrite list_lookup_insert_ne.
  - intros other. unfold is_alive. simpl.
    destruct (decide (other = window)) as [->|Hne].
    + rewrite list_lookup_insert_eq by (by apply lookup_lt_Some in Hw).
      rewrite Hw. simpl. by rewrite Hd.
    + by rewrite list_lookup_insert_ne.
Qed.

Lemma closed_sound window p :
  registry_sound p → registry_sound (WindowManager.closed window p).
Proof.
  intros [Hnd Hs]. unfold WindowManager.closed.
  destruct (heap p !! window) as [w|] eqn:Hw; [|done].
  destruct (bw_destroyed w) eqn:Hd; [done|]. split; simpl.
  - by apply delete_all_NoDup.
  - intros n other [Hnin Hin]%elem_of_delete_all.
    destruct (Hs _ _ Hin) as (w' & Hw' & Ha & Hn).
    destruct (decide (other = window)) as [->|Hne].
    { exfalso. apply Hnin. assert (w' = w) as -> by congruence.
      rewrite Hn. by left. }
    exists w'. by rewrite list_lookup_insert_ne.
Qed.

Lemma manage_sound op p :
  registry_sound p → ∃ p', manage true op p = Some p' ∧ registry_sound p'.
Proof.
  intros Hsound. destruct op as [name options|name|window]; simpl.
  - eexists. split; [done|]. by apply createWindow_sound.
  - unfold WindowManager.closeWindow, WindowManager.getWindow.
    destruct (Map_get name (windows p)) as [window|] eqn:Hg; [|by exists p].
    apply Map_get_Some in Hg. pose proof Hsound as [_ Hs].
    destruct (Hs _ _ Hg) as (w & Hw & Ha & _).
    destruct (WindowManager.close window p) as [p'|] eqn:Hc.
    + exists p'. split; [done|]. by destruct (close_sound _ _ _ Hsound Hc).
    + unfold WindowManager.close in Hc. by rewrite Hw, Ha in Hc.
  - eexists. split; [done|]. by apply closed_sound.
Qed.

Lemma manage_all_sound ops p :
  registry_sound p → ∃ p', manage_all true ops p = Some p' ∧ registry_sound p'.
Proof.
  revert p. induction ops as [|op ops IH]; intros p Hsound; simpl; [by exists p|].
  destruct (manage_sound op p Hsound) as (p1 & -> & Hs1). by apply IH.
Qed.

Lemma main_sound : registry_sound ElectronApp.main.
Proof.
  split; simpl; [apply NoDup_nil_2 | by intros ? ? ?%elem_of_nil].
Qed.

Lemma registered_alive p window :
  registry_sound p → window ∈ WindowManager.getAllWindows p → is_alive p window = true.
Proof.
  intros [_ Hs]. unfold WindowManager.getAllWindows.
  intros ([n w0] & -> & Hin)%list_elem_of_fmap. simpl.
  destruct (Hs _ _ Hin) as (w & Hw & Ha & _). unfold is_alive. by rewrite Hw, Ha.
Qed.

(** X10. [createWindow] constructs a new window and registers it under the
    name: [getWindow] of that name now returns the new window, every other
    name still maps to what it did, the windows constructed before are
    untouched, and the new window is alive, has loaded no file, and carries
    one ['closed'] listener, for its own name. *)
Theorem createWindow_registers (name : string) (options : list (string * JSVal))
    (p : Process) :
  let window := (WindowManager.createWindow name options p).1 in
  let p' := (WindowManager.createWindow name options p).2 in
  window = length (heap p)
  ∧ WindowManager.getWindow name p' = Some window
  ∧ (∀ other, other ≠ name →
       WindowManager.getWindow other p' = WindowManager.getWindow other p)
  ∧ (∀ old, old < length (heap p) → heap p' !! old = heap p !! old)
  ∧ heap p' !! window
    = Some (mkWindow (spread WindowManager.defaults options) None false false [name])
  ∧ is_alive p' window = true
  ∧ quitting p' = quitting p.
Proof.
  cbv zeta. unfold WindowManager.getWindow, is_alive. simpl. split_and!.
  - done.
  - apply Map_get_set_eq.
  - intros other Hne. by apply Map_get_set_ne.
  - intros old Hlt. by apply lookup_app_l.
  - by apply list_lookup_middle.
  - by rewrite list_lookup_middle.
  - done.
Qed.

(** X11. The options a window is constructed with are the caller's options
    spread over the defaults: a key the caller gives has the caller's value,
    whole (a [webPreferences] of the caller replaces the default
    [webPreferences] as one value); any other key has its default, which is
    width 800, height 600, and [webPreferences] with [nodeIntegration] false
    and [contextIsolation] true. *)
Theorem createWindow_options (name : string) (options : list (string * JSVal))
    (p : Process) :
  NoDup options.*1 →
  ∃ w, heap (WindowManager.createWindow name options p).2
         !! (WindowManager.createWindow name options p).1 = Some w
       ∧ ∀ key,
           Map_get key (bw_options w)
           = match Map_get key options with
             | Some v => Some v
             | None => Map_get key WindowManager.defaults
             end.
Proof.
  intros Hnd. eexists. split; [simpl; by apply list_lookup_middle|].
  intros key. cbn [bw_options]. by apply Map_get_spread.
Qed.

Lemma createWindow_options_witness :
  ∃ w, heap (WindowManager.createWindow "main"
               [("width", JNum 1200); ("webPreferences", JObj [("sandbox", JBool true)])]
               ElectronApp.main).2 !! 0 = Some w
       ∧ Map_get "width" (bw_options w) = Some (JNum 1200)
       ∧ Map_get "height" (bw_options w) = Some (JNum 600)
       ∧ Map_get "webPreferences" (bw_options w) = Some (JObj [("sandbox", JBool true)]).
Proof.
  destruct (createWindow_options "main"
              [("width", JNum 1200); ("webPreferences", JObj [("sandbox", JBool true)])]
              ElectronApp.main) as (w & Hw & Hkeys).
  - repeat constructor; rewrite ?elem_of_cons; intros H;
      repeat (destruct H as [H|H]; [discriminate|]); by apply elem_of_nil in H.
  - exists w. split; [exact Hw|].
    split_and!; rewrite Hkeys; reflexivity.
Defined.

(** Before the app is ready a sequence of calls goes through exactly when
    it asks for no window, and then the registry is as empty as before. *)
Lemma manage_all_not_ready ops :
  manage_all false ops ElectronApp.main
  = if existsb is_create ops then None else Some ElectronApp.main.
Proof.
  induction ops as [|[name options|name|window] ops IH]; simpl; done.
Qed.

(** X12. Once the app is ready, whatever sequence of [createWindow] calls,
    [closeWindow] calls and closing windows the manager goes through from
    its empty registry, no call throws, the names in the registry stay
    distinct, and every window that [getAllWindows] returns is alive; in
    particular [closeWindow] never calls [close] on a destroyed window.
    Before the app is ready, where [new BrowserWindow] throws, such a
    sequence throws exactly when it holds a [createWindow] call, and
    otherwise leaves the registry empty. *)
Theorem manager_throws_only_before_ready (ops : list ManagerOp) :
  (∃ p, manage_all true ops ElectronApp.main = Some p
        ∧ NoDup (windows p).*1
        ∧ Forall (λ window, is_alive p window = true) (WindowManager.getAllWindows p)
        ∧ ∀ name, is_Some (WindowManager.closeWindow name p))
  ∧ (manage_all false ops ElectronApp.main = None
     ↔ ∃ name options, CreateWindow name options ∈ ops)
  ∧ (∀ p, manage_all false ops ElectronApp.main = Some p → p = ElectronApp.main).
Proof.
  split_and!.
  - destruct (manage_all_sound ops _ main_sound) as (p & Hp & Hsound).
    exists p. split_and!; [done | by destruct Hsound | |].
    + apply Forall_forall. intros window Hin. by apply registered_alive.
    + intros name.
      destruct (manage_sound (CloseWindow name) p Hsound) as (p' & Hc & _).
      by exists p'.
  - rewrite manage_all_not_ready.
    destruct (existsb is_create ops) eqn:Hex.
    + split; [intros _|done]. apply existsb_exists in Hex as (op & Hin & Hop).
      destruct op as [name options| |]; [|done..]. exists name, options.
      by apply list_elem_of_In.
    + split; [done|]. intros (name & options & Hin).
      assert (existsb is_create ops = true) as Ht; [|congruence].
      apply existsb_exists. eexists. split; [by apply list_elem_of_In|done].
  - rewrite manage_all_not_ready. destruct (existsb is_create ops); [done|].
    by intros p [= <-].
Qed.

(** X13. The ['closed'] listener deletes by name, not by window. When a
    second window is created under a name that is taken, the first window
    stays alive but is no longer registered; and when the first window then
    closes, its listener removes the registration of the second: the name
    maps to nothing and [getAllWindows] does not list the second window,
    although it is alive. *)
Theorem closed_listener_deletes_by_name (name : string)
    (options1 options2 : list (string * JSVal)) (p : Process) :
  registry_sound p →
  let first := (WindowManager.createWindow name options1 p).1 in
  let p1 := (WindowManager.createWindow name options1 p).2 in
  let second := (WindowManager.createWindow name options2 p1).1 in
  let p2 := (WindowManager.createWindow name options2 p1).2 in
  let p3 := WindowManager.closed first p2 in
  first ≠ second
  ∧ WindowManager.getWindow name p2 = Some second
  ∧ is_alive p2 first = true
  ∧ (first ∉ WindowManager.getAllWindows p2)
  ∧ WindowManager.getWindow name p3 = None
  ∧ (second ∉ WindowManager.getAllWindows p3)
  ∧ is_alive p3 second = true.
Proof.
  intros Hsound. cbv zeta.
  set (p1 := (WindowManager.createWindow name options1 p).2).
  set (p2 := (WindowManager.createWindow name options2 p1).2).
  set (first := length (heap p)).
  assert ((WindowManager.createWindow name options1 p).1 = first) as -> by done.
  assert ((WindowManager.createWindow name options2 p1).1 = S first) as ->.
  { simpl. rewrite length_app. simpl. unfold first. lia. }
  pose proof (createWindow_sound name options1 p Hsound) as Hs1. fold p1 in Hs1.
  assert (heap p2 !! first
          = Some (mkWindow (spread WindowManager.defaults options1) None false false
                    [name])) as Hfirst.
  { simpl. rewrite lookup_app_l by (rewrite length_app; simpl; unfold first; lia).
    by apply list_lookup_middle. }
  assert (heap p2 !! S first
          = Some (mkWindow (spread WindowManager.defaults options2) None false false
                    [name])) as Hsecond.
  { simpl. apply list_lookup_middle. rewrite length_app. simpl. unfold first. lia. }
  assert (∀ k window, (k, window) ∈ windows p2 → k ≠ name → window < first) as Hold.
  { intros k window Hin Hne. simpl in Hin. destruct Hs1 as [Hnd1 _].
    apply (elem_of_Map_set _ _ _ _ _ Hnd1) in Hin as [[? _]|[_ Hin]]; [done|].
    simpl in Hin. pose proof Hsound as [Hnd _].
    apply (elem_of_Map_set _ _ _ _ _ Hnd) in Hin as [[? _]|[_ Hin]]; [done|].
    by apply (registry_sound_lt p k). }
  assert (WindowManager.getWindow name p2 = Some (S first)) as Hget.
  { unfold WindowManager.getWindow. simpl. rewrite Map_get_set_eq. f_equal.
    rewrite length_app. simpl. unfold first. lia. }
  split_and!.
  - lia.
  - done.
  - unfold is_alive. by rewrite Hfirst.
  - unfold WindowManager.getAllWindows.
    intros ([k w] & Hw & Hin)%list_elem_of_fmap. simpl in Hw. subst w.
    destruct (decide (k = name)) as [->|Hne].
    + apply Map_get_elem_of in Hin; [|by apply Map_set_NoDup; destruct Hs1].
      unfold WindowManager.getWindow in Hget. rewrite Hget in Hin.
      injection Hin. lia.
    + apply Hold in Hin; [lia | done].
  - unfold WindowManager.closed, WindowManager.getWindow. rewrite Hfirst. simpl.
    apply Map_get_delete_eq.
  - unfold WindowManager.closed, WindowManager.getAllWindows. rewrite Hfirst.
    cbn [bw_destroyed bw_onClosed windows fold_left].
    intros ([k w] & Hw & Hin)%list_elem_of_fmap. simpl in Hw. subst w.
    apply elem_of_Map_delete in Hin as [Hne Hin].
    apply Hold in Hin; [lia | done].
  - unfold WindowManager.closed, is_alive. rewrite Hfirst.
    cbn [bw_destroyed heap]. rewrite list_lookup_insert_ne by lia.
    by rewrite Hsecond.
Qed.

Lemma closed_listener_deletes_by_name_witness :
  let p2 :=
    (WindowManager.createWindow "main" []
       (WindowManager.createWindow "main" [] ElectronApp.main).2).2 in
  WindowManager.getWindow "main" (WindowManager.closed 0 p2) = None
  ∧ is_alive (WindowManager.closed 0 p2) 1 = true.
Proof.
  cbv zeta.
  pose proof (closed_listener_deletes_by_name "main" [] [] ElectronApp.main main_sound)
    as (_ & _ & _ & _ & Hnone & _ & Halive).
  split; [exact Hnone | exact Halive].
Defined.

(** X14. Closing by name. [closeWindow] of a name that is not registered
    does nothing. For a registered name (in a state the manager can reach)
    it asks that window to close and changes nothing else; once the window
    has closed, the name maps to nothing, the window is no longer listed,
    and every other name maps to what it did. *)
Theorem closeWindow_then_closed (name : string) (p : Process) :
  registry_sound p →
  match WindowManager.getWindow name p with
  | None => WindowManager.closeWindow name p = Some p
  | Some window =>
      ∃ p1 w,
        WindowManager.closeWindow name p = Some p1
        ∧ windows p1 = windows p
        ∧ heap p1 !! window = Some w ∧ bw_closing w = true ∧ bw_destroyed w = false
        ∧ (∀ other, other ≠ window → heap p1 !! other = heap p !! other)
        ∧ WindowManager.getWindow name (WindowManager.closed window p1) = None
        ∧ (window ∉ WindowManager.getAllWindows (WindowManager.closed window p1))
        ∧ is_alive (WindowManager.closed window p1) window = false
        ∧ ∀ other, other ≠ name →
            WindowManager.getWindow other (WindowManager.closed window p1)
            = WindowManager.getWindow other p
  end.
Proof.
  intros Hsound. unfold WindowManager.closeWindow.
  destruct (WindowManager.getWindow name p) as [window|] eqn:Hget; [|done].
  unfold WindowManager.getWindow in Hget. pose proof Hget as Hin.
  apply Map_get_Some in Hin. pose proof Hsound as [Hnd Hs].
  destruct (Hs _ _ Hin) as (w & Hw & Ha & Hn).
  unfold WindowManager.close. rewrite Hw, Ha.
  eexists _, _. split; [done|].
  assert (window < length (heap p)) as Hlt by (by apply lookup_lt_Some in Hw).
  unfold WindowManager.closed, WindowManager.getWindow, WindowManager.getAllWindows,
    is_alive.
  cbn [windows heap quitting]. rewrite list_lookup_insert_eq by done.
  cbn [bw_destroyed bw_onClosed windows heap]. rewrite Hn. cbn [fold_left].
  split_and!; [done | done | done | done | | | | |].
  - intros other Hne. by rewrite list_lookup_insert_ne.
  - apply Map_get_delete_eq.
  - intros ([k x] & Hk & Hin')%list_elem_of_fmap. simpl in Hk. subst x.
    apply elem_of_Map_delete in Hin' as [Hne Hin'].
    destruct (Hs _ _ Hin') as (w' & Hw' & _ & Hn').
    assert (w' = w) as -> by congruence. rewrite Hn in Hn'. congruence.
  - by rewrite list_lookup_insert_eq by (by rewrite length_insert).
  - intros other Hne. by apply Map_get_delete_ne.
Qed.

Lemma closeWindow_then_closed_witness :
  let p := (WindowManager.createWindow "main" [] ElectronApp.main).2 in
  ∃ p1, WindowManager.closeWindow "main" p = Some p1
        ∧ WindowManager.getWindow "main" (WindowManager.closed 0 p1) = None.
Proof.
  cbv zeta.
  pose proof (closeWindow_then_closed "main"
                (WindowManager.createWindow "main" [] ElectronApp.main).2
                (createWindow_sound "main" [] _ main_sound)) as H.
  change (WindowManager.getWindow "main"
            (WindowManager.createWindow "main" [] ElectronApp.main).2)
    with (Some 0) in H.
  destruct H as (p1 & w & Hc & _ & _ & _ & _ & _ & Hnone & _).
  exists p1. split; [exact Hc | exact Hnone].
Defined.

(* ===================================================================== *)
(** ** The application lifecycle *)
(* ===================================================================== *)

Lemma createMainWindow_eq p :
  ElectronApp.createMainWindow p
  = mkProcess (Map_set "main" (length (heap p)) (windows p))
      (heap p ++ [mkWindow ElectronApp.mainOptions (Some "index.html") false false
                    ["main"]])
      (quitting p).
Proof.
  unfold ElectronApp.createMainWindow, ElectronApp.loadFile. simpl.
  rewrite list_lookup_middle by done. simpl. f_equal.
  rewrite insert_app_r_alt by done. by rewrite Nat.sub_diag.
Qed.

Lemma length_Map_delete {V : Type} k (m : list (string * V)) :
  (length (Map_delete k m) ≤ length m)%nat.
Proof.
  induction m as [|[k' v'] m IH]; simpl; [done|]. case_decide; simpl; lia.
Qed.

Lemma main_only_main : main_only ElectronApp.main.
Proof.
  split_and!; [apply main_sound | by apply Forall_nil | | simpl; lia].
  intros window. unfold is_alive. simpl. by destruct window.
Qed.

Lemma main_only_createMainWindow p :
  main_only p → windows p = [] → main_only (ElectronApp.createMainWindow p).
Proof.
  intros (Hsound & Hall & Halive & Hlen) Hempty. rewrite createMainWindow_eq.
  split_and!.
  - change (registry_sound
              (mkProcess (Map_set "main" (length (heap p)) (windows p))
                 (heap p ++ [mkWindow ElectronApp.mainOptions (Some "index.html") false
                               false ["main"]])
                 (quitting p))).
    pose proof Hsound as [Hnd Hs]. split; simpl.
    + by apply Map_set_NoDup.
    + rewrite Hempty. simpl. intros n window [= -> ->]%list_elem_of_singleton.
      eexists. split; [by apply list_lookup_middle|]. done.
  - simpl. apply Forall_app. split; [done|]. by repeat constructor.
  - intros window. unfold is_alive, WindowManager.getAllWindows. simpl.
    rewrite Hempty. simpl. intros Ha.
    destruct (decide (window < length (heap p))) as [Hlt|Hge].
    + rewrite lookup_app_l in Ha by done.
      specialize (Halive window). unfold is_alive, WindowManager.getAllWindows in Halive.
      rewrite Hempty in Halive. by apply Halive, elem_of_nil in Ha.
    + destruct (decide (window = length (heap p))) as [->|Hne]; [by left|].
      rewrite lookup_ge_None_2 in Ha; [done|]. rewrite length_app. simpl. lia.
  - simpl. rewrite Hempty. simpl. lia.
Qed.

Lemma main_only_closed window p :
  main_only p → main_only (WindowManager.closed window p).
Proof.
  intros (Hsound & Hall & Halive & Hlen).
  pose proof (closed_sound window p Hsound) as Hsound'.
  unfold WindowManager.closed in *.
  destruct (heap p !! window) as [w|] eqn:Hw; [|done].
  destruct (bw_destroyed w) eqn:Hd; [done|].
  assert (bw_onClosed w = ["main"]) as Hn.
  { rewrite Forall_forall in Hall. apply Hall. by apply list_elem_of_lookup_2 in Hw. }
  assert (window < length (heap p)) as Hlt by (by apply lookup_lt_Some in Hw).
  split_and!; [done | | |].
  - simpl. apply Forall_insert; [done|]. simpl.
    rewrite Forall_forall in Hall. apply list_elem_of_lookup_2 in Hw.
    destruct (Hall _ Hw) as (? & ? & ?). done.
  - intros other Ha. exfalso. unfold is_alive in Ha. simpl in Ha.
    destruct (decide (other = window)) as [->|Hne].
    { rewrite list_lookup_insert_eq in Ha by done. done. }
    rewrite list_lookup_insert_ne in Ha by done.
    assert (is_alive p window = true) as Ha1 by (unfold is_alive; by rewrite Hw, Hd).
    apply Halive in Ha1. apply Halive in Ha.
    unfold WindowManager.getAllWindows in *.
    destruct (windows p) as [|[k x] [|? ?]]; simpl in *; [| |lia].
    + by apply elem_of_nil in Ha.
    + apply list_elem_of_singleton in Ha, Ha1. congruence.
  - simpl. rewrite Hn. simpl. etrans; [apply length_Map_delete | done].
Qed.

Lemma main_only_handle platform h p :
  h ≠ ElectronApp.WhenReady → main_only p → main_only (ElectronApp.handle platform h p).
Proof.
  intros Hh Hp. destruct h as [| | |window]; simpl; [done | | |].
  - unfold ElectronApp.onWindowAllClosed. case_decide; [|done].
    destruct Hp as ([Hnd Hs] & Hall & Halive & Hlen). by split_and!.
  - unfold ElectronApp.onActivate, WindowManager.getAllWindows.
    rewrite length_fmap. destruct (windows p) eqn:Hw; simpl; [|done].
    by apply main_only_createMainWindow.
  - by apply main_only_closed.
Qed.

Lemma main_only_run platform hs p :
  ElectronApp.WhenReady ∉ hs → main_only p → main_only (ElectronApp.run platform hs p).
Proof.
  unfold ElectronApp.run. revert p.
  induction hs as [|h hs IH]; intros p Hnot Hp; simpl; [done|].
  apply not_elem_of_cons in Hnot as [Hh Hnot].
  apply IH; [done|]. apply main_only_handle; [congruence | done].
Qed.

Lemma main_only_ready : main_only (ElectronApp.onReady ElectronApp.main).
Proof. apply main_only_createMainWindow; [apply main_only_main | done]. Qed.

(** X15. The application has at most one window, and it is the main
    window. After [whenReady] has fired once, whatever [activate] and
    [window-all-closed] events arrive and whichever windows close,
    [getAllWindows] has at most one window, registered as ['main']; a window
    is alive exactly when it is registered; and every window ever
    constructed has width 1200, height 800, [nodeIntegration] false,
    [contextIsolation] true, and has loaded [index.html]. *)
Theorem single_main_window (platform : string) (hs : list ElectronApp.Happening) :
  ElectronApp.WhenReady ∉ hs →
  let p := ElectronApp.run platform hs (ElectronApp.onReady ElectronApp.main) in
  (length (WindowManager.getAllWindows p) ≤ 1)%nat
  ∧ (∀ window, is_alive p window = true ↔ window ∈ WindowManager.getAllWindows p)
  ∧ (∀ window, window ∈ WindowManager.getAllWindows p →
       WindowManager.getWindow "main" p = Some window)
  ∧ Forall (λ w, bw_options w = ElectronApp.mainOptions
                 ∧ bw_file w = Some "index.html") (heap p).
Proof.
  intros Hnot. cbv zeta.
  destruct (main_only_run platform hs _ Hnot main_only_ready)
    as (Hsound & Hall & Halive & Hlen).
  set (p := ElectronApp.run _ _ _) in *.
  split_and!.
  - unfold WindowManager.getAllWindows. by rewrite length_fmap.
  - intros window. split; [apply Halive | by apply registered_alive].
  - unfold WindowManager.getAllWindows, WindowManager.getWindow.
    intros window ([k x] & Hx & Hin)%list_elem_of_fmap. simpl in Hx. subst x.
    pose proof Hsound as [Hnd Hs]. destruct (Hs _ _ Hin) as (w & Hw & _ & Hn).
    rewrite Forall_forall in Hall. apply list_elem_of_lookup_2 in Hw.
    destruct (Hall _ Hw) as (_ & _ & Hn'). rewrite Hn in Hn'.
    injection Hn' as ->. by apply Map_get_elem_of.
  - eapply Forall_impl; [exact Hall|]. by intros w (? & ? & _).
Qed.

Lemma single_main_window_witness :
  let p := ElectronApp.run "darwin"
             [ElectronApp.Closed 0; ElectronApp.WindowAllClosed; ElectronApp.Activate;
              ElectronApp.Activate]
             (ElectronApp.onReady ElectronApp.main) in
  (length (WindowManager.getAllWindows p) ≤ 1)%nat
  ∧ WindowManager.getAllWindows p = [1].
Proof.
  cbv zeta. split; [|reflexivity].
  refine (proj1 (single_main_window "darwin" _ _)).
  rewrite !not_elem_of_cons. split_and!; try discriminate. apply not_elem_of_nil.
Defined.

Lemma quitting_handle platform h p :
  quitting (ElectronApp.handle platform h p) = true
  ↔ quitting p = true ∨ (platform ≠ "darwin" ∧ h = ElectronApp.WindowAllClosed).
Proof.
  destruct h as [| | |window]; simpl.
  - unfold ElectronApp.onReady. rewrite createMainWindow_eq. simpl.
    split; [by left | by intros [?|[_ ?]]].
  - unfold ElectronApp.onWindowAllClosed. case_decide as Hp; simpl.
    + split; [by right | done].
    + split; [by left | intros [?|[? _]]; done].
  - unfold ElectronApp.onActivate. destruct (_ =? _)%nat;
      rewrite ?createMainWindow_eq; simpl; (split; [by left | by intros [?|[_ ?]]]).
  - unfold WindowManager.closed. destruct (heap p !! window) as [w|];
      [destruct (bw_destroyed w)|]; simpl; (split; [by left | by intros [?|[_ ?]]]).
Qed.

Lemma quitting_run platform hs p :
  quitting (ElectronApp.run platform hs p) = true
  ↔ quitting p = true ∨ (platform ≠ "darwin" ∧ ElectronApp.WindowAllClosed ∈ hs).
Proof.
  unfold ElectronApp.run. revert p. induction hs as [|h hs IH]; intros p; simpl.
  - split; [by left | intros [?|[_ ?%elem_of_nil]]; done].
  - rewrite IH, quitting_handle, elem_of_cons. split.
    + intros [[?|[? ->]]|[? ?]]; auto.
    + intros [?|[? [<-|?]]]; auto.
Qed.

(** X16. The application asks to quit exactly when a [window-all-closed]
    event arrives on a platform other than ['darwin']: on macOS no sequence
    of events makes it call [app.quit()], elsewhere the first
    [window-all-closed] does, and nothing else does. *)
Theorem quits_iff_all_closed_off_mac (platform : string)
    (hs : list ElectronApp.Happening) :
  quitting (ElectronApp.run platform hs ElectronApp.main) = true
  ↔ platform ≠ "darwin" ∧ ElectronApp.WindowAllClosed ∈ hs.
Proof.
  rewrite quitting_run. simpl. split; [by intros [?|?] | by right].
Qed.

(** X17. [activate] opens a window only when there is none. After
    [whenReady], in any state the application reaches: when a window is
    registered, [activate] changes nothing; when the registered window has
    closed, [activate] constructs a new main window, which is then the one
    registered and alive, while the closed one is not. *)
Theorem activate_reopens_main_window (platform : string)
    (hs : list ElectronApp.Happening) :
  ElectronApp.WhenReady ∉ hs →
  let p := ElectronApp.run platform hs (ElectronApp.onReady ElectronApp.main) in
  (WindowManager.getAllWindows p ≠ [] → ElectronApp.onActivate p = p)
  ∧ (WindowManager.getAllWindows p = [] →
     WindowManager.getAllWindows (ElectronApp.onActivate p) = [length (heap p)])
  ∧ ∀ window,
      WindowManager.getAllWindows p = [window] →
      let p' := ElectronApp.onActivate (WindowManager.closed window p) in
      WindowManager.getAllWindows p' = [length (heap p)]
      ∧ WindowManager.getWindow "main" p' = Some (length (heap p))
      ∧ is_alive p' (length (heap p)) = true
      ∧ is_alive p' window = false.
Proof.
  intros Hnot. cbv zeta.
  destruct (main_only_run platform hs _ Hnot main_only_ready)
    as (Hsound & Hall & Halive & Hlen).
  set (p := ElectronApp.run _ _ _) in *.
  unfold WindowManager.getAllWindows, WindowManager.getWindow. split_and!.
  - intros Hne. unfold ElectronApp.onActivate, WindowManager.getAllWindows.
    destruct (windows p); [done|]. done.
  - intros Hempty. apply fmap_nil_inv in Hempty.
    unfold ElectronApp.onActivate, WindowManager.getAllWindows.
    rewrite Hempty. simpl. rewrite createMainWindow_eq. simpl. by rewrite Hempty.
  - intros window Hone.
    destruct (windows p) as [|[k x] [|? ?]] eqn:Hw; simpl in Hone; try done.
    injection Hone as ->.
    pose proof Hsound as [Hnd Hs].
    destruct (Hs k window) as (w & Hlook & Hd & Hn); [rewrite Hw; by left|].
    assert (k = "main") as ->.
    { rewrite Forall_forall in Hall. apply list_elem_of_lookup_2 in Hlook as Hin.
      destruct (Hall _ Hin) as (_ & _ & Hn'). rewrite Hn in Hn'. by injection Hn'. }
    assert (window < length (heap p)) as Hlt by (by apply lookup_lt_Some in Hlook).
    unfold WindowManager.closed. rewrite Hlook, Hd, Hn, Hw.
    cbn [fold_left Map_delete]. rewrite decide_True by done.
    unfold ElectronApp.onActivate, WindowManager.getAllWindows.
    cbn [windows fmap list_fmap length Nat.eqb]. rewrite createMainWindow_eq.
    cbn [windows heap Map_set fmap list_fmap]. rewrite length_insert.
    unfold is_alive. cbn [heap].
    split_and!; [done | unfold Map_get; by case_decide | |].
    + rewrite list_lookup_middle; [done | by rewrite length_insert].
    + rewrite lookup_app_l by (by rewrite length_insert).
      by rewrite list_lookup_insert_eq.
Qed.

Lemma activate_reopens_main_window_witness :
  let p := ElectronApp.onReady ElectronApp.main in
  WindowManager.getAllWindows (ElectronApp.onActivate (WindowManager.closed 0 p)) = [1]
  ∧ ElectronApp.onActivate p = p.
Proof.
  cbv zeta.
  assert (ElectronApp.WhenReady ∉ ([] : list ElectronApp.Happening)) as Hnot
    by apply not_elem_of_nil.
  pose proof (activate_reopens_main_window "darwin" [] Hnot) as (Hsame & _ & Hre).
  split.
  - exact (proj1 (Hre 0 eq_refl)).
  - apply Hsame. discriminate.
Defined.
